(** * Pitch Meter: a shallow embedding of [src/App.tsx]

    The component is a React function component.  Its pipeline is made of
    one pure function ([getNote]) and of closures over the component's state
    and refs ([calibrateNoise], [updateCalibration], [updatePitch],
    [startListening], [stopListening] and the two handlers).  The closures
    are embedded as functions on an explicit [State] record; the values a
    closure captures from the render that created it are explicit arguments,
    and the loops that [requestAnimationFrame] keeps pending are part of the
    [Machine] on which the events of the browser act.

    Numbers.  A JavaScript [number] that carries an audio quantity (a sample,
    a magnitude, a frequency) is modelled as a real number: rounding of IEEE
    doubles (and of the [Float32Array] cells) is not modelled, so that what
    is proved of a computed value holds of the code up to that rounding; the
    infinities are not modelled either, except the [-Infinity] of [Math.max()]
    without arguments;
    [NaN] is modelled only where the code tests for it (the estimator's
    result).  Integers that the code uses as array positions or counters are
    [nat] or [Z].

    Events are atomic: a handler or an animation-frame callback runs to its
    end before the next one starts, as on the single thread of the browser.
    The click that starts listening, the answer of [getUserMedia] and the rest
    of [startListening] are one event: the [await] is not a point where other
    events are interleaved.  The code sets [isListening] after the [await],
    so a browser can deliver a second click before the first request is
    answered; the runs of this model have no such click, every session is
    started by one click. *)

From Stdlib Require Import Reals Lra Lia ZArith String List.
From stdpp Require Import base list strings pretty.
Import ListNotations.

Open Scope R_scope.

(** ** JavaScript primitives used by the component *)

Module JS.

(** [Math.log2]. *)
Definition log2 (x : R) : R := ln x / ln 2.

(** [Math.round]: nearest integer, ties towards +infinity. *)
Definition round (x : R) : Z := Zfloor (x + / 2).

(** [Math.floor]. *)
Definition floor (x : R) : Z := Zfloor x.

(** The remainder operator [%] on integers: the sign follows the dividend. *)
Definition rem (a b : Z) : Z := Z.rem a b.

(** [xs[i]] for an integer [i]: [undefined] ([None]) outside [0 .. length-1]. *)
Definition index {A} (xs : list A) (i : Z) : option A :=
  if (i <? 0)%Z then None else xs !! Z.to_nat i.

(** A template-literal hole filled with a value that may be [undefined]. *)
Definition show_string (s : option string) : string :=
  match s with Some v => v | None => "undefined" end.

(** A template-literal hole filled with an integer. *)
Definition show_int (z : Z) : string := pretty z.

(** [xs.slice(start, end)]: negative positions count from the end, both
    positions are clamped to [0 .. length]. *)
Definition clamp_pos (len : nat) (k : Z) : nat :=
  if (k <? 0)%Z then Z.to_nat (Z.max 0 (Z.of_nat len + k))
  else Nat.min (Z.to_nat k) len.

Definition slice {A} (xs : list A) (start stop : Z) : list A :=
  let a := clamp_pos (length xs) start in
  let b := clamp_pos (length xs) stop in
  take (b - a) (drop a xs).

(** [xs.slice(start)]. *)
Definition slice_from {A} (xs : list A) (start : Z) : list A :=
  drop (clamp_pos (length xs) start) xs.

(** [xs.reduce((a, b) => a + b, 0)]. *)
Definition sum (xs : list R) : R := fold_left Rplus xs 0.

End JS.

(** ** [NOTES] and [getNote] (App.tsx, lines 9-16) *)

Definition NOTES : list string :=
  ["C"; "C#"; "D"; "D#"; "E"; "F"; "F#"; "G"; "G#"; "A"; "A#"; "B"]%string.

Definition noteNum (frequency : R) : R := 12 * (JS.log2 (frequency / 440) + 4).

Definition noteIndex (frequency : R) : Z :=
  JS.rem (JS.round (noteNum frequency)) 12.

Definition octave (frequency : R) : Z := JS.floor (noteNum frequency / 12).

(** For a positive frequency the three [const]s are numbers.  At [0] the
    logarithm is [-Infinity] and for a negative argument it is [NaN]; the
    template literal then prints as written in the two last branches. *)
Definition getNote (frequency : R) : string :=
  if Rlt_dec 0 frequency then
    (JS.show_string (JS.index NOTES (noteIndex frequency))
       ++ JS.show_int (octave frequency))%string
  else if Req_dec_T frequency 0 then "undefined-Infinity"%string
  else "undefinedNaN"%string.

(** The note the text of [getNote] is meant to print: pitch class and octave. *)
Definition note_text (pitchClass : string) (oct : Z) : string :=
  (pitchClass ++ JS.show_int oct)%string.

(** ** More JavaScript primitives: typed arrays, loops, comparisons *)

#[global] Instance Rlt_decision : RelDecision Rlt := Rlt_dec.
#[global] Instance Rle_decision : RelDecision Rle := Rle_dec.

(** The result of [Math.max(...xs)], and so the content of [noiseFloorRef]:
    a number, or [-Infinity] for an empty argument list. *)
Inductive xreal : Type :=
| NegInfinity
| Finite (r : R).

Module TypedArray.

(** [new Float32Array(n)]: [n] zeros. *)
Definition make (n : nat) : list R := replicate n 0.

(** [xs[i]] read as a number.  Every read of the component is in range when
    the arrays are not empty; outside the range JavaScript reads [undefined],
    which is not modelled, and this function answers [0]. *)
Definition get (xs : list R) (i : nat) : R := default 0 (xs !! i).

(** [target.set(source)]: overwrites the first [length source] cells; a
    [RangeError] ([None]) when the source is longer than the target. *)
Definition set (target source : list R) : option (list R) :=
  if decide (length source <= length target)%nat
  then Some (source ++ drop (length source) target)
  else None.

(** [Math.max(...xs)]. *)
Definition max_of (xs : list R) : xreal :=
  match xs with
  | [] => NegInfinity
  | x :: xs' => Finite (fold_left Rmax xs' x)
  end.

End TypedArray.

(** [for (let i = 0; i < n; i++) body], as a state transformer. *)
Definition for_loop {S : Type} (n : nat) (body : nat -> S -> S) (init : S) : S :=
  fold_left (fun s i => body i s) (seq 0 n) init.

(** [pitch > noiseFloorRef.current]. *)
Definition above_floor (pitch : R) (floor : xreal) : bool :=
  match floor with
  | NegInfinity => true
  | Finite F => bool_decide (F < pitch)
  end.

(** ** The component's state (App.tsx, lines 19-32)

    [useState] cells and the two refs that hold data.  The refs to the audio
    graph are not data of the pipeline: the analyser is represented by what it
    delivers (see [event] below) and by its [frequencyBinCount]. *)

Record State : Type := mkState {
  isListening : bool;
  pitchData : list R;
  currentNote : string;
  cancelNoise : bool;
  isCalibrating : bool;
  calibrationTime : nat;
  smoothness : nat;
  noiseFloorRef : xreal;
  noiseProfileRef : option (list R)
}.

Definition initialState : State :=
  {| isListening := false; pitchData := []; currentNote := ""%string;
     cancelNoise := false; isCalibrating := false; calibrationTime := 5;
     smoothness := 0; noiseFloorRef := Finite 0; noiseProfileRef := None |}.

Definition set_isListening (b : bool) (s : State) : State :=
  mkState b (pitchData s) (currentNote s) (cancelNoise s) (isCalibrating s)
    (calibrationTime s) (smoothness s) (noiseFloorRef s) (noiseProfileRef s).

Definition set_pitchData (d : list R) (s : State) : State :=
  mkState (isListening s) d (currentNote s) (cancelNoise s) (isCalibrating s)
    (calibrationTime s) (smoothness s) (noiseFloorRef s) (noiseProfileRef s).

Definition set_currentNote (n : string) (s : State) : State :=
  mkState (isListening s) (pitchData s) n (cancelNoise s) (isCalibrating s)
    (calibrationTime s) (smoothness s) (noiseFloorRef s) (noiseProfileRef s).

Definition set_cancelNoise (b : bool) (s : State) : State :=
  mkState (isListening s) (pitchData s) (currentNote s) b (isCalibrating s)
    (calibrationTime s) (smoothness s) (noiseFloorRef s) (noiseProfileRef s).

Definition set_isCalibrating (b : bool) (s : State) : State :=
  mkState (isListening s) (pitchData s) (currentNote s) (cancelNoise s) b
    (calibrationTime s) (smoothness s) (noiseFloorRef s) (noiseProfileRef s).

Definition set_smoothness (n : nat) (s : State) : State :=
  mkState (isListening s) (pitchData s) (currentNote s) (cancelNoise s)
    (isCalibrating s) (calibrationTime s) n (noiseFloorRef s) (noiseProfileRef s).

Definition set_noiseFloorRef (f : xreal) (s : State) : State :=
  mkState (isListening s) (pitchData s) (currentNote s) (cancelNoise s)
    (isCalibrating s) (calibrationTime s) (smoothness s) f (noiseProfileRef s).

Definition set_noiseProfileRef (p : option (list R)) (s : State) : State :=
  mkState (isListening s) (pitchData s) (currentNote s) (cancelNoise s)
    (isCalibrating s) (calibrationTime s) (smoothness s) (noiseFloorRef s) p.

(** ** Calibration (App.tsx, lines 45-74) *)

(** The local variables of one call of [calibrateNoise], shared with its
    [updateCalibration] closure. *)
Record CalLoop : Type := mkCalLoop {
  calibrationFrames : nat;
  maxCalibrationFrames : nat
}.

(** Lines 58-60: the running maximum, written into the profile cell by cell. *)
Definition max_into (profile frequencyData : list R) : list R :=
  for_loop (length frequencyData)
    (fun i profile =>
       <[i := Rmax (TypedArray.get profile i) (TypedArray.get frequencyData i)]> profile)
    profile.

(** Lines 55-61: what one round writes into the profile. *)
Definition absorb (calibrationFrames : nat) (profile frequencyData : list R)
  : option (list R) :=
  if decide (calibrationFrames = 0)%nat
  then TypedArray.set profile frequencyData
  else Some (max_into profile frequencyData).

(** How a round of [updateCalibration] leaves its loop: it asked for another
    animation frame (with these variables), it was the last round, or it
    threw (on a missing profile or on a spectrum longer than the profile). *)
Inductive outcome : Type :=
| Rescheduled (l : CalLoop)
| Ended
| Threw.

Definition pending (o : outcome) : list CalLoop :=
  match o with
  | Rescheduled l => [l]
  | Ended | Threw => []
  end.

Definition threw (o : outcome) : bool :=
  match o with
  | Threw => true
  | Rescheduled _ | Ended => false
  end.

(** [updateCalibration]: one round on the spectrum [frequencyData] that
    [getFloatFrequencyData] delivered; the state after the round, and how the
    round left the loop.  A round that throws does so before it writes. *)
Definition updateCalibration (l : CalLoop) (frequencyData : list R) (s : State)
  : State * outcome :=
  match noiseProfileRef s with
  | None => (s, Threw)
  | Some profile =>
    match absorb (calibrationFrames l) profile frequencyData with
    | None => (s, Threw)
    | Some profile' =>
      let s1 := set_noiseProfileRef (Some profile') s in
      let frames := S (calibrationFrames l) in
      if decide (frames < maxCalibrationFrames l)%nat
      then (s1, Rescheduled (mkCalLoop frames (maxCalibrationFrames l)))
      else (set_noiseFloorRef (TypedArray.max_of profile')
              (set_isCalibrating false s1), Ended)
    end
  end.

(** [calibrateNoise]: a fresh profile of [frequencyBinCount] zeros, then the
    first round at once, on the spectrum the analyser holds at that moment. *)
Definition calibrateNoise (frequencyBinCount : nat) (frequencyData : list R)
  (s : State) : State * outcome :=
  let s1 := set_noiseProfileRef (Some (TypedArray.make frequencyBinCount))
              (set_isCalibrating true s) in
  updateCalibration (mkCalLoop 0 (calibrationTime s * 60)) frequencyData s1.

(** ** The pitch tick (App.tsx, lines 91-122) *)

(** First component of [detector.findPitch(input, sampleRate)], as the guard of
    line 102 distinguishes it. *)
Inductive pitch_result : Type :=
| PitchNull
| PitchNaN
| PitchNum (pitch : R).

(** The [cancelNoise] and [smoothness] that [updatePitch] closes over: those
    of the render in which [startListening] was created.  The loop keeps this
    closure for as long as it runs. *)
Record Env : Type := mkEnv {
  env_cancelNoise : bool;
  env_smoothness : nat
}.

(** Lines 95-97: the subtraction loop, in place on [input].  The profile has
    [frequencyBinCount] bins, a positive number in a browser; on a profile
    without bins the code stores [NaN] in every sample, a value the samples of
    this model do not have (the model reads 0 for the missing bin). *)
Definition attenuate (profile input : list R) : list R :=
  for_loop (length input)
    (fun i input =>
       <[i := Rmax 0 (TypedArray.get input i
                      - TypedArray.get profile (i mod length profile))]> input)
    input.

(** Lines 94-98. *)
Definition gate_apply (cancelNoise : bool) (noiseProfile : option (list R))
  (input : list R) : list R :=
  match noiseProfile with
  | Some profile => if cancelNoise then attenuate profile input else input
  | None => input
  end.

(** Lines 108-111: the average pushed at position [i]. *)
Definition average_at (newData : list R) (smoothness i : nat) : R :=
  let start := Z.max 0 (Z.of_nat i - Z.of_nat smoothness) in
  let stop := Z.min (Z.of_nat (length newData))
                    (Z.of_nat i + Z.of_nat smoothness + 1) in
  let slice := JS.slice newData start stop in
  JS.sum slice / INR (length slice).

(** Lines 106-113: the loop that fills [smoothedData]. *)
Definition smoothedData (newData : list R) (smoothness : nat) : list R :=
  for_loop (length newData)
    (fun i smoothed => smoothed ++ [average_at newData smoothness i]) [].

(** Lines 105-116 without the truncation: the smoothing the updater applies. *)
Definition smooth (newData : list R) (smoothness : nat) : list R :=
  if decide (0 < smoothness)%nat then smoothedData newData smoothness else newData.

(** Lines 103-117: the updater passed to [setPitchData]. *)
Definition nextPitchData (smoothness : nat) (pitch : R) (prevData : list R)
  : list R :=
  let newData := prevData ++ [pitch] in
  if decide (0 < smoothness)%nat
  then JS.slice_from (smoothedData newData smoothness) (-100)
  else JS.slice_from newData (-100).

(** Line 102: the guard; [Some pitch] when the estimate is let through. *)
Definition accepted (cancelNoise : bool) (noiseFloor : xreal) (r : pitch_result)
  : option R :=
  match r with
  | PitchNum pitch =>
    if negb cancelNoise || above_floor pitch noiseFloor then Some pitch else None
  | PitchNull | PitchNaN => None
  end.

Section Session.

(** [analyserRef.current.frequencyBinCount]: fixed, since [fftSize] is never
    assigned. *)
Variable frequencyBinCount : nat.

(** [input => detector.findPitch(input, sampleRate)[0]]: the estimator, an
    external library, at the sample rate of the audio context. *)
Variable findPitch : list R -> pitch_result.

(** [updatePitch]: one tick on the samples [input] that
    [getFloatTimeDomainData] delivered. *)
Definition updatePitch (env : Env) (input : list R) (s : State) : State :=
  let input' := gate_apply (env_cancelNoise env) (noiseProfileRef s) input in
  match accepted (env_cancelNoise env) (noiseFloorRef s) (findPitch input') with
  | Some pitch =>
    set_currentNote (getNote pitch)
      (set_pitchData (nextPitchData (env_smoothness env) pitch (pitchData s)) s)
  | None => s
  end.

(** ** The running component

    Besides the state, what is pending in the browser: the [updatePitch] loop
    whose id [rafIdRef] holds, with its closure, and the [updateCalibration]
    loops, whose ids are not kept. *)
Record Machine : Type := mkMachine {
  ui : State;
  pitchLoop : option Env;
  calLoops : list CalLoop
}.

Definition initialMachine : Machine := mkMachine initialState None [].

Definition with_ui (s : State) (m : Machine) : Machine :=
  mkMachine s (pitchLoop m) (calLoops m).

(** A call of [calibrateNoise]: a new loop is pending when its first round
    asked for another frame.  From a handler, a round that throws ends the
    handler, with what was written before. *)
Definition run_calibrateNoise (frequencyData : list R) (m : Machine) : Machine :=
  let '(s, o) := calibrateNoise frequencyBinCount frequencyData (ui m) in
  mkMachine s (pitchLoop m) (calLoops m ++ pending o).

(** Lines 91-125: the pitch loop is created with its closure, runs its first
    tick at once, and [isListening] is set. *)
Definition listen (env : Env) (input : list R) (m : Machine) : Machine :=
  mkMachine (set_isListening true (updatePitch env input (ui m))) (Some env)
    (calLoops m).

(** [startListening] (lines 76-129).  [granted] is the outcome of
    [getUserMedia]; on a rejection the [catch] only logs, and so it does when
    the first calibration round throws, which leaves the rest of the [try]
    block undone. *)
Definition startListening (granted : bool) (input frequencyData : list R)
  (m : Machine) : Machine :=
  if granted then
    let env := mkEnv (cancelNoise (ui m)) (smoothness (ui m)) in
    if cancelNoise (ui m) then
      let m1 := run_calibrateNoise frequencyData m in
      if threw (snd (calibrateNoise frequencyBinCount frequencyData (ui m)))
      then m1
      else listen env input m1
    else listen env input m
  else m.

(** [stopListening] (lines 131-144): only the pitch loop is cancelled. *)
Definition stopListening (m : Machine) : Machine :=
  mkMachine
    (set_currentNote ""%string (set_pitchData [] (set_isListening false (ui m))))
    None (calLoops m).

(** [handleCancelNoiseChange] (lines 146-151). *)
Definition handleCancelNoiseChange (checked : bool) (frequencyData : list R)
  (m : Machine) : Machine :=
  let m1 := with_ui (set_cancelNoise checked (ui m)) m in
  if checked && isListening (ui m) then run_calibrateNoise frequencyData m1 else m1.

(** [handleCalibrate] (lines 153-157). *)
Definition handleCalibrate (frequencyData : list R) (m : Machine) : Machine :=
  if isListening (ui m) then run_calibrateNoise frequencyData m else m.

(** What can happen to the component: the user's actions on the enabled
    controls, and the animation frames of the pending loops.  An event carries
    what the analyser delivers to the code it triggers. *)
Inductive event : Type :=
| ClickListen (granted : bool) (input frequencyData : list R)
| ChangeCancelNoise (checked : bool) (frequencyData : list R)
| ClickCalibrate (frequencyData : list R)
| ChangeSmoothness (value : nat)
| PitchFrame (input : list R)
| CalibrationFrame (k : nat) (frequencyData : list R).

(** The animation frame of the [k]-th pending calibration loop. *)
Definition calibrationFrame (k : nat) (frequencyData : list R) (m : Machine)
  : Machine :=
  match calLoops m !! k with
  | None => m
  | Some l =>
    let '(s, o) := updateCalibration l frequencyData (ui m) in
    mkMachine s (pitchLoop m)
      (take k (calLoops m) ++ pending o ++ drop (S k) (calLoops m))
  end.

Definition step (m : Machine) (e : event) : Machine :=
  match e with
  | ClickListen granted input frequencyData =>
    (* lines 188 and 192 *)
    if isCalibrating (ui m) then m
    else if isListening (ui m) then stopListening m
    else startListening granted input frequencyData m
  | ChangeCancelNoise checked frequencyData =>
    handleCancelNoiseChange checked frequencyData m
  | ClickCalibrate frequencyData =>
    (* line 224 *)
    if negb (isListening (ui m)) || isCalibrating (ui m) then m
    else handleCalibrate frequencyData m
  | ChangeSmoothness value => with_ui (set_smoothness value (ui m)) m
  | PitchFrame input =>
    match pitchLoop m with
    | Some env => with_ui (updatePitch env input (ui m)) m
    | None => m
    end
  | CalibrationFrame k frequencyData => calibrationFrame k frequencyData m
  end.

Definition run (m : Machine) (es : list event) : Machine := fold_left step es m.

End Session.

(** ** The chart (App.tsx, lines 159-169) *)

(** Lines 159-160: the labels of the chart, [index.toString()] for every
    entry of the history. *)
Definition chartLabels (pitchData : list R) : list string :=
  imap (fun index _ => pretty index) pitchData.

(** ** The vocabulary of the spec

    Definitions that follow the words of the spec, to be compared with the
    code, and the notions the statements about runs need. *)

(** Spec 4.4, in its words: the window of position [i] with radius [r] is
    [[max(0, i-r), min(len, i+r+1))], and the output is the arithmetic mean
    of the history positions in the window. *)
Definition window_lo (i r : nat) : nat :=
  Z.to_nat (Z.max 0 (Z.of_nat i - Z.of_nat r)).

Definition window_hi (len i r : nat) : nat := Nat.min len (i + r + 1).

Definition mean_of_positions (xs : list R) (lo hi : nat) : R :=
  fold_right Rplus 0 (map (TypedArray.get xs) (seq lo (hi - lo))) / INR (hi - lo).

(** Spec 4.2, in its words: for each sample index [i], subtract the profile
    value at bin [i mod profileLength] and clamp to be non-negative. *)
Definition subtract_and_clamp (profile : list R) (i : nat) (sample : R) : R :=
  Rmax 0 (sample - TypedArray.get profile (i mod length profile)).

(** Spec 4.1, in its words: the profile of a window of frames is the first
    frame, then each bin set to [max(existing, incoming)] frame after frame. *)
Definition binwise_max (first : list R) (rest : list (list R)) : list R :=
  fold_left (zip_with Rmax) rest first.

(** Spec 4.2, in its words: [accept(pitch)] holds if noise cancellation is
    disabled or [pitch > noiseFloor]. *)
Definition accept (cancelNoise : bool) (noiseFloor : xreal) (pitch : R) : Prop :=
  cancelNoise = false
  \/ match noiseFloor with NegInfinity => True | Finite F => F < pitch end.

(** Spec 4.6, in its words: the published history is the raw list of the
    accepted pitches, smoothed as a whole, truncated to the capacity from the
    tail. *)
Definition publish_from_raw (raw : list R) (r : nat) : list R :=
  JS.slice_from (smooth raw r) (-100).

(** The history the updater of lines 103-117 leaves after the pitches [ps]
    were accepted one after the other, from an empty history. *)
Definition history_after (r : nat) (ps : list R) : list R :=
  fold_left (fun prevData pitch => nextPitchData r pitch prevData) ps [].

(** The spectra that the calibration frames of an event sequence deliver. *)
Fixpoint spectra_of (es : list event) : list (list R) :=
  match es with
  | [] => []
  | CalibrationFrame _ frequencyData :: es' => frequencyData :: spectra_of es'
  | _ :: es' => spectra_of es'
  end.

(** An animation frame: of the pitch loop, or of the first pending calibration
    loop with a spectrum of [n] bins. *)
Definition animation_frame (n : nat) (e : event) : Prop :=
  match e with
  | PitchFrame _ => True
  | CalibrationFrame k frequencyData => k = 0%nat /\ length frequencyData = n
  | _ => False
  end.

(** The machine [m1] right after [calibrateNoise] was called on the spectrum
    [first] in the machine [m]: the call is the last act of a handler (lines
    149 and 155), or [startListening] goes on with the first tick of the pitch
    loop (lines 88-125). *)
Definition calibration_started (frequencyBinCount : nat)
  (findPitch : list R -> pitch_result) (m : Machine) (first : list R)
  (m1 : Machine) : Prop :=
  m1 = run_calibrateNoise frequencyBinCount first m
  \/ exists (env : Env) (input : list R),
       m1 = listen findPitch env input
              (run_calibrateNoise frequencyBinCount first m).

(** An event that starts no calibration while one is in progress.  The Listen
    and the Calibrate buttons are disabled then (lines 192 and 224) and
    unchecking the box starts nothing: only checking the box does.  The
    calibration frames are those of the one pending loop, with spectra of [n]
    bins. *)
Definition no_new_calibration (n : nat) (e : event) : Prop :=
  match e with
  | ChangeCancelNoise checked _ => checked = false
  | CalibrationFrame k frequencyData => k = 0%nat /\ length frequencyData = n
  | ClickListen _ _ _ | ClickCalibrate _ | ChangeSmoothness _ | PitchFrame _ => True
  end.



(** The radius of the pitch loop, if one is running, is the current radius:
    the slider was not moved since the loop was created. *)
Definition radius_is_current (m : Machine) : Prop :=
  forall env : Env, pitchLoop m = Some env -> env_smoothness env = smoothness (ui m).

(** Any event but a move of the smoothness slider. *)
Definition keeps_radius (e : event) : Prop :=
  match e with
  | ChangeSmoothness _ => False
  | _ => True
  end.

(** The number of rounds of a calibration started in state [s]: the loop
    tests its counter after the round. *)
Definition rounds (s : State) : nat := Nat.max 1 (calibrationTime s * 60).


(** A click on the Listen button whose [getUserMedia] request is rejected;
    any other event. *)
Definition mic_denied (e : event) : Prop :=
  match e with
  | ClickListen granted _ _ => granted = false
  | _ => True
  end.

(** Any event but a click on the Listen button. *)
Definition not_listen_click (e : event) : Prop :=
  match e with
  | ClickListen _ _ _ => False
  | _ => True
  end.

(** The spectrum a handler passes to the first calibration round has at most
    [n] bins. *)
Definition spectrum_fits (n : nat) (e : event) : Prop :=
  match e with
  | ClickListen _ _ frequencyData
  | ChangeCancelNoise _ frequencyData
  | ClickCalibrate frequencyData => (length frequencyData <= n)%nat
  | _ => True
  end.

(** The counters of a pending calibration loop: at least one frame consumed,
    not yet all of the 300. *)
Definition loop_in_range (l : CalLoop) : Prop :=
  (1 <= calibrationFrames l < maxCalibrationFrames l)%nat
  /\ maxCalibrationFrames l = 300%nat.

(** The shape every machine has that a run of this model reaches, for an
    analyser of [n] bins. *)
Definition well_shaped (n : nat) (m : Machine) : Prop :=
  calibrationTime (ui m) = 5%nat
  /\ (isListening (ui m) = true <-> is_Some (pitchLoop m))
  /\ Forall loop_in_range (calLoops m)
  /\ (forall p : list R, noiseProfileRef (ui m) = Some p -> length p = n)
  /\ (calLoops m <> [] -> is_Some (noiseProfileRef (ui m))).

(** ** Estimators and a session for concrete runs *)

(** Two estimators for concrete runs: one that finds no pitch, and one that
    reports the first sample of the frame as the pitch. *)
Definition silent (input : list R) : pitch_result := PitchNull.

Definition first_sample (input : list R) : pitch_result :=
  PitchNum (TypedArray.get input 0).


(** A session with one bin: listening is started, the Calibrate button is
    clicked on the spectrum [[1]], and the 299 further calibration frames
    deliver the same spectrum. *)
Definition calibrated_session : Machine :=
  run 1 silent initialMachine
    ([ClickListen true [] []; ClickCalibrate [1]]
       ++ replicate 299 (CalibrationFrame 0 [1])).

(** A session with one bin in which the box is checked while listening.
    Listening starts with the box unchecked (the first tick reports 5); the
    box is checked on the spectrum [[9]], which starts a calibration, and the
    299 further calibration frames deliver the same spectrum. *)
Definition toggled_session : Machine :=
  run 1 first_sample initialMachine
    ([ClickListen true [5] []; ChangeCancelNoise true [9]]
       ++ replicate 299 (CalibrationFrame 0 [9])).




(** ** Logarithm bounds by integer powers *)

Section Log2Bounds.

Lemma ln2_pos : 0 < ln 2.
Proof. pose proof ln_lt_2; lra. Qed.

Lemma log2_1 : JS.log2 1 = 0.
Proof. unfold JS.log2. rewrite ln_1. pose proof ln2_pos. field. lra. Qed.

Lemma log2_pow2 (n : nat) : JS.log2 (2 ^ n) = INR n.
Proof.
  unfold JS.log2. rewrite ln_pow by lra. pose proof ln2_pos. field. lra.
Qed.

Lemma log2_inv_pow2 (n : nat) : JS.log2 (/ 2 ^ n) = - INR n.
Proof.
  unfold JS.log2. rewrite ln_Rinv by (apply pow_lt; lra).
  rewrite ln_pow by lra. pose proof ln2_pos. field. lra.
Qed.

(** [x^b * 2^n >= 1] gives [log2 x >= - n / b]. *)
Lemma log2_lower (x : R) (b n : nat) :
  0 < x -> (0 < b)%nat -> 1 <= x ^ b * 2 ^ n ->
  - INR n / INR b <= JS.log2 x.
Proof.
  intros Hx Hb H.
  assert (Hb' : 0 < INR b) by (apply lt_0_INR; lia).
  assert (Hxb : 0 < x ^ b) by (apply pow_lt; lra).
  assert (H2n : 0 < 2 ^ n) by (apply pow_lt; lra).
  assert (Hln : 0 <= INR b * ln x + INR n * ln 2).
  { rewrite <- !ln_pow by lra. rewrite <- ln_mult by assumption.
    rewrite <- ln_1. destruct H as [H | H].
    - left. apply ln_increasing; lra.
    - rewrite <- H. right. reflexivity. }
  unfold JS.log2. pose proof ln2_pos as L.
  apply Rmult_le_reg_r with (r := INR b * ln 2).
  { apply Rmult_lt_0_compat; lra. }
  replace (- INR n / INR b * (INR b * ln 2)) with (- (INR n * ln 2)) by (field; lra).
  replace (ln x / ln 2 * (INR b * ln 2)) with (INR b * ln x) by (field; lra).
  lra.
Qed.

(** [x^b * 2^n < 1] gives [log2 x < - n / b]. *)
Lemma log2_upper (x : R) (b n : nat) :
  0 < x -> (0 < b)%nat -> x ^ b * 2 ^ n < 1 ->
  JS.log2 x < - INR n / INR b.
Proof.
  intros Hx Hb H.
  assert (Hb' : 0 < INR b) by (apply lt_0_INR; lia).
  assert (Hxb : 0 < x ^ b) by (apply pow_lt; lra).
  assert (H2n : 0 < 2 ^ n) by (apply pow_lt; lra).
  assert (Hln : INR b * ln x + INR n * ln 2 < 0).
  { rewrite <- !ln_pow by lra. rewrite <- ln_mult by assumption.
    rewrite <- ln_1. apply ln_increasing; [ apply Rmult_lt_0_compat |]; lra. }
  unfold JS.log2. pose proof ln2_pos as L.
  apply Rmult_lt_reg_r with (r := INR b * ln 2).
  { apply Rmult_lt_0_compat; lra. }
  replace (- INR n / INR b * (INR b * ln 2)) with (- (INR n * ln 2)) by (field; lra).
  replace (ln x / ln 2 * (INR b * ln 2)) with (INR b * ln x) by (field; lra).
  lra.
Qed.

End Log2Bounds.

(** ** Evaluating [getNote] *)

Lemma round_eq (x : R) (k : Z) : IZR k - / 2 <= x < IZR k + / 2 -> JS.round x = k.
Proof. intros H. unfold JS.round. apply Zfloor_eq. lra. Qed.

Lemma floor_eq (x : R) (k : Z) : IZR k <= x < IZR k + 1 -> JS.floor x = k.
Proof. intros H. unfold JS.floor. apply Zfloor_eq. lra. Qed.

(** [getNote] at a positive frequency whose semitone number lies in a known
    half-open unit interval around [k] and whose octave is [o]. *)
Lemma getNote_eval (f : R) (k o : Z) :
  0 < f ->
  IZR k - / 2 <= noteNum f < IZR k + / 2 ->
  IZR o <= noteNum f / 12 < IZR o + 1 ->
  getNote f = (JS.show_string (JS.index NOTES (Z.rem k 12)) ++ JS.show_int o)%string.
Proof.
  intros Hf Hk Ho. unfold getNote, noteIndex, octave, JS.rem.
  destruct (Rlt_dec 0 f) as [_ | n]; [| contradiction].
  rewrite (round_eq _ _ Hk), (floor_eq _ _ Ho). reflexivity.
Qed.

(** Integer comparisons that decide the logarithm bounds of a fraction [p/q]. *)
Lemma frac_pow_ge (p q : Z) (b n : nat) :
  (0 < p)%Z -> (0 < q)%Z ->
  (q ^ Z.of_nat b <= p ^ Z.of_nat b * 2 ^ Z.of_nat n)%Z ->
  1 <= (IZR p / IZR q) ^ b * 2 ^ n.
Proof.
  intros Hp Hq H.
  assert (Hq' : 0 < IZR q) by (apply IZR_lt; lia).
  assert (Hqb : 0 < IZR q ^ b) by (apply pow_lt; lra).
  unfold Rdiv. rewrite Rpow_mult_distr, pow_inv.
  apply IZR_le in H. rewrite mult_IZR, <- !pow_IZR in H.
  apply Rmult_le_reg_r with (r := IZR q ^ b); [assumption |].
  replace (IZR p ^ b * / IZR q ^ b * 2 ^ n * IZR q ^ b)
    with (IZR p ^ b * 2 ^ n) by (field; lra).
  lra.
Qed.

Lemma frac_pow_lt (p q : Z) (b n : nat) :
  (0 < p)%Z -> (0 < q)%Z ->
  (p ^ Z.of_nat b * 2 ^ Z.of_nat n < q ^ Z.of_nat b)%Z ->
  (IZR p / IZR q) ^ b * 2 ^ n < 1.
Proof.
  intros Hp Hq H.
  assert (Hq' : 0 < IZR q) by (apply IZR_lt; lia).
  assert (Hqb : 0 < IZR q ^ b) by (apply pow_lt; lra).
  unfold Rdiv. rewrite Rpow_mult_distr, pow_inv.
  apply IZR_lt in H. rewrite mult_IZR, <- !pow_IZR in H.
  apply Rmult_lt_reg_r with (r := IZR q ^ b); [assumption |].
  replace (IZR p ^ b * / IZR q ^ b * 2 ^ n * IZR q ^ b)
    with (IZR p ^ b * 2 ^ n) by (field; lra).
  lra.
Qed.

(** Bounds of [noteNum] at a fraction of the reference frequency: with
    [f / 440 = p / q], [noteNum f] lies in [[48 - n1/2, 48 - n2/2)] as soon as
    the two integer comparisons hold (24 half-semitones per octave). *)
Lemma noteNum_bounds (f : R) (p q : Z) (n1 n2 : nat) :
  (0 < p)%Z -> (0 < q)%Z -> f / 440 = IZR p / IZR q ->
  (q ^ 24 <= p ^ 24 * 2 ^ Z.of_nat n1)%Z ->
  (p ^ 24 * 2 ^ Z.of_nat n2 < q ^ 24)%Z ->
  48 - INR n1 / 2 <= noteNum f < 48 - INR n2 / 2.
Proof.
  intros Hp Hq Hf H1 H2.
  assert (Hx : 0 < IZR p / IZR q).
  { apply Rdiv_lt_0_compat; apply IZR_lt; lia. }
  pose proof (log2_lower _ 24 n1 Hx ltac:(lia) (frac_pow_ge p q 24 n1 Hp Hq H1)) as L.
  pose proof (log2_upper _ 24 n2 Hx ltac:(lia) (frac_pow_lt p q 24 n2 Hp Hq H2)) as U.
  unfold noteNum. rewrite Hf.
  replace (INR 24) with 24 in L, U by (simpl; lra).
  lra.
Qed.

Lemma noteNum_440 : noteNum 440 = 48.
Proof.
  unfold noteNum. replace (440 / 440) with 1 by lra. rewrite log2_1. lra.
Qed.

Lemma noteNum_880 : noteNum 880 = 60.
Proof.
  unfold noteNum. replace (880 / 440) with (2 ^ 1) by lra.
  rewrite log2_pow2. simpl. lra.
Qed.

Lemma noteNum_220 : noteNum 220 = 36.
Proof.
  unfold noteNum. replace (220 / 440) with (/ 2 ^ 1) by lra.
  rewrite log2_inv_pow2. simpl. lra.
Qed.

Lemma noteNum_middle_C : 39 <= noteNum 261.63 < 39 + / 2.
Proof.
  pose proof (noteNum_bounds 261.63 26163 44000 18 17) as H.
  replace (INR 18) with 18 in H by (simpl; lra).
  replace (INR 17) with 17 in H by (simpl; lra).
  assert (48 - 18 / 2 <= noteNum 261.63 < 48 - 17 / 2); [| lra].
  apply H; [lia | lia | lra | vm_compute; congruence | reflexivity].
Qed.

Lemma noteNum_25 : -2 - / 2 <= noteNum 25 < -2 + / 2.
Proof.
  pose proof (noteNum_bounds 25 5 88 101 99) as H.
  replace (INR 101) with 101 in H by (simpl; lra).
  replace (INR 99) with 99 in H by (simpl; lra).
  assert (48 - 101 / 2 <= noteNum 25 < 48 - 99 / 2); [| lra].
  apply H; [lia | lia | lra | vm_compute; congruence | reflexivity].
Qed.

Example getNote_at_references :
  getNote 440 = "C4"%string /\ getNote 880 = "C5"%string /\
  getNote 220 = "C3"%string /\ getNote 261.63 = "D#3"%string /\
  getNote 25 = "undefined-1"%string.
Proof.
  repeat split.
  - rewrite (getNote_eval 440 48 4); [reflexivity | lra | |]; rewrite noteNum_440; lra.
  - rewrite (getNote_eval 880 60 5); [reflexivity | lra | |]; rewrite noteNum_880; lra.
  - rewrite (getNote_eval 220 36 3); [reflexivity | lra | |]; rewrite noteNum_220; lra.
  - pose proof noteNum_middle_C.
    rewrite (getNote_eval 261.63 39 3); [reflexivity | lra | |]; lra.
  - pose proof noteNum_25.
    rewrite (getNote_eval 25 (-2) (-1)); [reflexivity | lra | |]; lra.
Qed.

(** ** Loops *)

Lemma for_loop_S {S : Type} (n : nat) (body : nat -> S -> S) (init : S) :
  for_loop (Datatypes.S n) body init = body n (for_loop n body init).
Proof.
  unfold for_loop. rewrite seq_S, fold_left_app. reflexivity.
Qed.

(** A loop that pushes one value per round builds the list of those values. *)
Lemma for_loop_push {A : Type} (n : nat) (h : nat -> A) :
  for_loop n (fun i acc => acc ++ [h i]) [] = map h (seq 0 n).
Proof.
  induction n as [| n IH]; [reflexivity |].
  rewrite for_loop_S, IH, seq_S, map_app. reflexivity.
Qed.

(** A loop that rewrites cell [i] from its own content in round [i]. *)
Lemma for_loop_cells (g : nat -> R -> R) (n : nat) (xs : list R) (j : nat) :
  for_loop n (fun i ys => <[i := g i (TypedArray.get ys i)]> ys) xs !! j
  = if decide (j < n)%nat then g j <$> xs !! j else xs !! j.
Proof.
  induction n as [| n IH]; [reflexivity |].
  rewrite for_loop_S.
  set (ys := for_loop n _ xs) in *.
  assert (Hlen : length ys = length xs).
  { subst ys. clear IH. induction n as [| m IHm]; [reflexivity |].
    rewrite for_loop_S, length_insert. exact IHm. }
  destruct (decide (j = n)) as [-> | Hne].
  - destruct (decide (n < length xs)%nat) as [Hlt | Hge].
    + rewrite list_lookup_insert_eq by lia.
      unfold TypedArray.get. rewrite IH.
      destruct (decide (n < n)%nat); [lia |].
      destruct (decide (n < S n)%nat); [| lia].
      destruct (lookup_lt_is_Some_2 xs n Hlt) as [x Hx]. rewrite Hx. reflexivity.
    + rewrite list_insert_ge by lia. rewrite IH.
      destruct (decide (n < n)%nat); [lia |].
      destruct (decide (n < S n)%nat); [| lia].
      rewrite (lookup_ge_None_2 xs n) by lia. reflexivity.
  - rewrite list_lookup_insert_ne by congruence. rewrite IH.
    destruct (decide (j < n)%nat), (decide (j < S n)%nat); try lia; reflexivity.
Qed.

Lemma for_loop_cells_length (g : nat -> R -> R) (n : nat) (xs : list R) :
  length (for_loop n (fun i ys => <[i := g i (TypedArray.get ys i)]> ys) xs)
  = length xs.
Proof.
  induction n as [| n IH]; [reflexivity |].
  rewrite for_loop_S, length_insert. exact IH.
Qed.

(** ** Slices and sums *)

Lemma clamp_pos_nat (len k : nat) : JS.clamp_pos len (Z.of_nat k) = Nat.min k len.
Proof.
  unfold JS.clamp_pos. destruct (Z.ltb_spec (Z.of_nat k) 0); [lia |].
  rewrite Nat2Z.id. reflexivity.
Qed.

Lemma clamp_pos_neg (len k : nat) :
  (0 < k)%nat -> JS.clamp_pos len (- Z.of_nat k) = (len - k)%nat.
Proof.
  intros Hk. unfold JS.clamp_pos.
  destruct (Z.ltb_spec (- Z.of_nat k) 0); lia.
Qed.

(** [xs.slice(-100)] keeps the last 100 cells. *)
Lemma slice_from_last_100 {A : Type} (xs : list A) :
  JS.slice_from xs (-100) = drop (length xs - 100) xs.
Proof.
  unfold JS.slice_from.
  change (-100)%Z with (- Z.of_nat 100)%Z. rewrite clamp_pos_neg by lia.
  reflexivity.
Qed.

Lemma slice_from_last_100_length {A : Type} (xs : list A) :
  length (JS.slice_from xs (-100)) = Nat.min 100 (length xs).
Proof. rewrite slice_from_last_100, length_drop. lia. Qed.

(** The slice of the averaging window, in natural-number positions. *)
Lemma slice_window {A : Type} (xs : list A) (r i : nat) :
  JS.slice xs (Z.max 0 (Z.of_nat i - Z.of_nat r))
              (Z.min (Z.of_nat (length xs)) (Z.of_nat i + Z.of_nat r + 1))
  = take (Nat.min (length xs) (i + r + 1) - (i - r)) (drop (i - r) xs).
Proof.
  unfold JS.slice.
  replace (Z.max 0 (Z.of_nat i - Z.of_nat r)) with (Z.of_nat (i - r)) by lia.
  replace (Z.min (Z.of_nat (length xs)) (Z.of_nat i + Z.of_nat r + 1))
    with (Z.of_nat (Nat.min (length xs) (i + r + 1))) by lia.
  rewrite !clamp_pos_nat.
  destruct (decide (i - r <= length xs)%nat) as [Hle | Hgt].
  - f_equal; [lia | f_equal; lia].
  - rewrite !drop_ge by lia. rewrite !take_nil. reflexivity.
Qed.

Lemma sum_fold_left (xs : list R) (a : R) :
  fold_left Rplus xs a = a + fold_right Rplus 0 xs.
Proof.
  revert a. induction xs as [| x xs IH]; intros a; simpl; [lra |].
  rewrite IH. lra.
Qed.

Lemma sum_fold_right (xs : list R) : JS.sum xs = fold_right Rplus 0 xs.
Proof. unfold JS.sum. rewrite sum_fold_left. lra. Qed.

(** Cells [lo .. lo+n-1] of a list, read one by one. *)
Lemma take_drop_cells (xs : list R) (lo n : nat) :
  (lo + n <= length xs)%nat ->
  take n (drop lo xs) = map (TypedArray.get xs) (seq lo n).
Proof.
  intros H. apply list_eq. intros j.
  rewrite list_lookup_fmap.
  destruct (decide (j < n)%nat) as [Hj | Hj].
  - rewrite lookup_take_lt by lia. rewrite lookup_drop.
    rewrite lookup_seq_lt by lia. simpl. unfold TypedArray.get.
    destruct (lookup_lt_is_Some_2 xs (lo + j)) as [x Hx]; [lia |].
    rewrite Hx. reflexivity.
  - rewrite lookup_take_ge by lia. rewrite lookup_seq_ge by lia. reflexivity.
Qed.

(** ** The smoother *)

Lemma smoothedData_map (xs : list R) (r : nat) :
  smoothedData xs r = map (average_at xs r) (seq 0 (length xs)).
Proof. unfold smoothedData. apply for_loop_push. Qed.

Lemma smoothedData_length (xs : list R) (r : nat) :
  length (smoothedData xs r) = length xs.
Proof. rewrite smoothedData_map, length_map, length_seq. reflexivity. Qed.

Lemma average_at_mean (xs : list R) (r i : nat) :
  (i < length xs)%nat ->
  average_at xs r i
  = mean_of_positions xs (window_lo i r) (window_hi (length xs) i r).
Proof.
  intros Hi. unfold average_at, mean_of_positions, window_lo, window_hi.
  replace (Z.to_nat (Z.max 0 (Z.of_nat i - Z.of_nat r))) with (i - r)%nat by lia.
  rewrite slice_window, sum_fold_right.
  rewrite take_drop_cells by lia.
  rewrite length_map, length_seq. reflexivity.
Qed.

Lemma smooth_length (xs : list R) (r : nat) : length (smooth xs r) = length xs.
Proof.
  unfold smooth. destruct (decide (0 < r)%nat); [apply smoothedData_length | reflexivity].
Qed.

Lemma mean_of_single (xs : list R) (i : nat) (x : R) :
  xs !! i = Some x ->
  mean_of_positions xs (window_lo i 0) (window_hi (length xs) i 0) = x.
Proof.
  intros Hx. pose proof (lookup_lt_Some _ _ _ Hx) as Hi.
  unfold mean_of_positions, window_lo, window_hi.
  replace (Z.to_nat (Z.max 0 (Z.of_nat i - Z.of_nat 0))) with i by lia.
  replace (Nat.min (length xs) (i + 0 + 1) - i)%nat with 1%nat by lia.
  simpl. unfold TypedArray.get. rewrite Hx. simpl. lra.
Qed.

Lemma smooth_lookup (xs : list R) (r i : nat) :
  (i < length xs)%nat ->
  smooth xs r !! i
  = Some (mean_of_positions xs (window_lo i r) (window_hi (length xs) i r)).
Proof.
  intros Hi. unfold smooth. destruct (decide (0 < r)%nat) as [Hr | Hr].
  - rewrite smoothedData_map, list_lookup_fmap, lookup_seq_lt by lia.
    simpl. rewrite average_at_mean by lia. reflexivity.
  - assert (r = 0)%nat as -> by lia.
    destruct (lookup_lt_is_Some_2 xs i Hi) as [x Hx].
    rewrite Hx, (mean_of_single xs i x Hx). reflexivity.
Qed.

(** C5: for every sequence and radius, the smoother returns a sequence of
    the same length whose position [i] is the arithmetic mean of the input
    positions [[max(0, i-r), min(len, i+r+1))]; with radius 0 it returns its
    input. *)
Theorem C5_smooth_is_windowed_mean (xs : list R) (r : nat) :
  length (smooth xs r) = length xs
  /\ (forall i : nat, (i < length xs)%nat ->
        smooth xs r !! i
        = Some (mean_of_positions xs (window_lo i r) (window_hi (length xs) i r)))
  /\ smooth xs 0 = xs.
Proof.
  split; [apply smooth_length |]. split; [| reflexivity].
  intros i Hi. apply smooth_lookup, Hi.
Qed.

(** The loop of lines 106-113 run with radius 0 would also return its input. *)
Lemma smoothedData_radius_0 (xs : list R) : smoothedData xs 0 = xs.
Proof.
  apply list_eq. intros i. rewrite smoothedData_map, list_lookup_fmap.
  destruct (decide (i < length xs)%nat) as [Hi | Hi].
  - rewrite lookup_seq_lt by lia. simpl. rewrite average_at_mean by lia.
    destruct (lookup_lt_is_Some_2 xs i Hi) as [x Hx].
    rewrite (mean_of_single xs i x Hx), Hx. reflexivity.
  - rewrite lookup_seq_ge by lia. rewrite lookup_ge_None_2 by lia. reflexivity.
Qed.

(** ** The noise gate's [apply] step *)

Lemma attenuate_lookup (profile input : list R) (i : nat) :
  attenuate profile input !! i = subtract_and_clamp profile i <$> input !! i.
Proof.
  unfold attenuate.
  pose proof (for_loop_cells (subtract_and_clamp profile) (length input) input i) as H.
  unfold subtract_and_clamp in *. rewrite H.
  destruct (decide (i < length input)%nat) as [Hi | Hi]; [reflexivity |].
  rewrite lookup_ge_None_2 by lia. reflexivity.
Qed.

Lemma attenuate_length (profile input : list R) :
  length (attenuate profile input) = length input.
Proof.
  unfold attenuate.
  apply (for_loop_cells_length (subtract_and_clamp profile)).
Qed.


(** The attenuation step as a function of the flag that the closure of the
    pitch loop holds: it returns a frame of the same length; with the flag set
    and a (non-empty) profile, sample [i] becomes
    [max(0, sample[i] - profile[i mod profileLength])]; with the flag clear, or
    without a profile, the frame is returned as it is. *)
Lemma gate_apply_by_flag (cancelNoise : bool) (noiseProfile : option (list R))
  (input : list R) :
  length (gate_apply cancelNoise noiseProfile input) = length input
  /\ (forall (profile : list R) (i : nat) (sample : R),
        cancelNoise = true -> noiseProfile = Some profile -> profile <> [] ->
        input !! i = Some sample ->
        gate_apply cancelNoise noiseProfile input !! i
        = Some (Rmax 0 (sample - TypedArray.get profile (i mod length profile)))
          /\ (i mod length profile < length profile)%nat)
  /\ (cancelNoise = false \/ noiseProfile = None ->
        gate_apply cancelNoise noiseProfile input = input).
Proof.
  repeat split.
  - unfold gate_apply. destruct noiseProfile as [profile |], cancelNoise;
      try reflexivity. apply attenuate_length.
  - subst. simpl. rewrite attenuate_lookup, H2. reflexivity.
  - apply Nat.mod_upper_bound. destruct profile; [congruence | simpl; lia].
  - intros [-> | ->]; unfold gate_apply; [destruct noiseProfile |
      destruct cancelNoise]; reflexivity.
Qed.

(** ** Calibration rounds *)

Lemma max_into_zip (profile frequencyData : list R) :
  length frequencyData = length profile ->
  max_into profile frequencyData = zip_with Rmax profile frequencyData.
Proof.
  intros Hlen. apply list_eq. intros j. unfold max_into.
  pose proof (for_loop_cells (fun i x => Rmax x (TypedArray.get frequencyData i))
                (length frequencyData) profile j) as H.
  simpl in H. rewrite H. clear H.
  rewrite lookup_zip_with. unfold TypedArray.get.
  destruct (decide (j < length frequencyData)%nat) as [Hj | Hj].
  - destruct (lookup_lt_is_Some_2 profile j) as [x Hx]; [lia |].
    destruct (lookup_lt_is_Some_2 frequencyData j Hj) as [y Hy].
    rewrite Hx, Hy. reflexivity.
  - rewrite (lookup_ge_None_2 profile j) by lia. reflexivity.
Qed.

Lemma set_same_length (target source : list R) :
  length source = length target -> TypedArray.set target source = Some source.
Proof.
  intros Hlen. unfold TypedArray.set.
  destruct (decide (length source <= length target)%nat); [| lia].
  rewrite drop_ge by lia. rewrite app_nil_r. reflexivity.
Qed.

Lemma absorb_first (profile frequencyData : list R) :
  length frequencyData = length profile ->
  absorb 0 profile frequencyData = Some frequencyData.
Proof. intros H. unfold absorb. simpl. apply set_same_length, H. Qed.

Lemma absorb_next (k : nat) (profile frequencyData : list R) :
  (1 <= k)%nat -> length frequencyData = length profile ->
  absorb k profile frequencyData = Some (zip_with Rmax profile frequencyData).
Proof.
  intros Hk H. unfold absorb. destruct (decide (k = 0)%nat); [lia |].
  rewrite max_into_zip by assumption. reflexivity.
Qed.

Lemma binwise_max_length (first : list R) (rest : list (list R)) :
  Forall (fun f => length f = length first) rest ->
  length (binwise_max first rest) = length first.
Proof.
  unfold binwise_max. revert first.
  induction rest as [| f rest IH]; intros first H; [reflexivity |].
  inversion H as [| ? ? Hf Hrest]; subst. simpl. rewrite IH.
  - rewrite length_zip_with. lia.
  - rewrite length_zip_with.
    eapply Forall_impl; [exact Hrest |]. simpl. intros g Hg. lia.
Qed.

Lemma binwise_max_snoc (first : list R) (rest : list (list R)) (f : list R) :
  binwise_max first (rest ++ [f]) = zip_with Rmax (binwise_max first rest) f.
Proof. unfold binwise_max. rewrite fold_left_app. reflexivity. Qed.

(** Each bin of [binwise_max] bounds that bin of every frame and is the bin
    of one of them: it is their maximum. *)
Lemma binwise_max_is_max (first : list R) (rest : list (list R)) (i : nat) :
  Forall (fun f => length f = length first) rest ->
  (i < length first)%nat ->
  (forall f, In f (first :: rest) ->
     TypedArray.get f i <= TypedArray.get (binwise_max first rest) i)
  /\ (exists f, In f (first :: rest)
        /\ TypedArray.get (binwise_max first rest) i = TypedArray.get f i).
Proof.
  intros Hall Hi. induction rest as [| g rest IH] using rev_ind.
  - split.
    + intros f [<- | []]. apply Rle_refl.
    + exists first. split; [left |]; reflexivity.
  - apply Forall_app in Hall as [Hrest Hg].
    inversion Hg as [| ? ? Hglen _]; subst.
    specialize (IH Hrest) as [IHle [w [Hw Hweq]]].
    pose proof (binwise_max_length first rest Hrest) as Hlen.
    rewrite binwise_max_snoc.
    assert (Hz : TypedArray.get (zip_with Rmax (binwise_max first rest) g) i
                 = Rmax (TypedArray.get (binwise_max first rest) i)
                        (TypedArray.get g i)).
    { unfold TypedArray.get. rewrite lookup_zip_with.
      destruct (lookup_lt_is_Some_2 (binwise_max first rest) i) as [x Hx]; [lia |].
      destruct (lookup_lt_is_Some_2 g i) as [y Hy]; [lia |].
      rewrite Hx, Hy. reflexivity. }
    rewrite Hz. split.
    + intros f Hf. change (In f (first :: (rest ++ [g]))) in Hf.
      rewrite app_comm_cons in Hf. apply in_app_or in Hf as [Hf | [<- | []]].
      * eapply Rle_trans; [apply IHle, Hf | apply Rmax_l].
      * apply Rmax_r.
    + destruct (Rmax_case_strong (TypedArray.get (binwise_max first rest) i)
                  (TypedArray.get g i)
                  (fun m => m = TypedArray.get (binwise_max first rest) i
                            \/ m = TypedArray.get g i)) as [E | E];
        [intros _; left; reflexivity | intros _; right; reflexivity | |].
      * exists w. split; [| congruence].
        change (In w (first :: (rest ++ [g]))). rewrite app_comm_cons.
        apply in_or_app. left. exact Hw.
      * exists g. split; [| exact E].
        change (In g (first :: (rest ++ [g]))). rewrite app_comm_cons.
        apply in_or_app. right. left. reflexivity.
Qed.

Lemma fold_left_Rmax_is_max (xs : list R) (a : R) :
  a <= fold_left Rmax xs a
  /\ (forall x, In x xs -> x <= fold_left Rmax xs a)
  /\ (fold_left Rmax xs a = a \/ In (fold_left Rmax xs a) xs).
Proof.
  revert a. induction xs as [| y xs IH]; intros a; simpl.
  - split; [lra |]. split; [intros x [] | left; reflexivity].
  - destruct (IH (Rmax a y)) as (I1 & I2 & I3).
    pose proof (Rmax_l a y). pose proof (Rmax_r a y).
    split; [lra |]. split.
    + intros x [<- | Hx]; [lra | apply I2, Hx].
    + destruct I3 as [E | Hin]; [| right; right; exact Hin].
      rewrite E. unfold Rmax. destruct (Rle_dec a y); [right; left |]; tauto.
Qed.

Lemma max_of_is_max (xs : list R) :
  xs <> [] ->
  exists F : R,
    TypedArray.max_of xs = Finite F
    /\ In F xs /\ forall x, In x xs -> x <= F.
Proof.
  destruct xs as [| a xs]; [contradiction |]. intros _.
  exists (fold_left Rmax xs a). destruct (fold_left_Rmax_is_max xs a) as (H1 & H2 & H3).
  split; [reflexivity |]. split.
  - destruct H3 as [-> | H]; [left; reflexivity | right; exact H].
  - intros x [<- | Hx]; [exact H1 | apply H2, Hx].
Qed.


Lemma spectra_of_app (es1 es2 : list event) :
  spectra_of (es1 ++ es2) = spectra_of es1 ++ spectra_of es2.
Proof.
  induction es1 as [| e es1 IH]; [reflexivity |].
  destruct e; simpl; rewrite IH; reflexivity.
Qed.


(** ** Calibration runs of the component *)

Section Properties.

Variable frequencyBinCount : nat.
Variable findPitch : list R -> pitch_result.

Local Abbreviation tick := (updatePitch findPitch).
Local Abbreviation step' := (step frequencyBinCount findPitch).
Local Abbreviation run' := (run frequencyBinCount findPitch).

Lemma updatePitch_refs (env : Env) (input : list R) (s : State) :
  noiseFloorRef (tick env input s) = noiseFloorRef s
  /\ noiseProfileRef (tick env input s) = noiseProfileRef s
  /\ isCalibrating (tick env input s) = isCalibrating s
  /\ isListening (tick env input s) = isListening s
  /\ cancelNoise (tick env input s) = cancelNoise s
  /\ calibrationTime (tick env input s) = calibrationTime s
  /\ smoothness (tick env input s) = smoothness s.
Proof.
  unfold updatePitch.
  destruct (accepted _ _ _); repeat split; reflexivity.
Qed.

Lemma run_cons (m : Machine) (e : event) (es : list event) :
  run' m (e :: es) = run' (step' m e) es.
Proof. reflexivity. Qed.

Lemma run_app (m : Machine) (es1 es2 : list event) :
  run' m (es1 ++ es2) = run' (run' m es1) es2.
Proof. unfold run. apply fold_left_app. Qed.

(** Pitch frames alone leave the refs and the pending calibrations alone. *)
Lemma pitch_frames_keep (es : list event) (m : Machine) :
  Forall (animation_frame frequencyBinCount) es -> spectra_of es = [] ->
  calLoops (run' m es) = calLoops m
  /\ noiseProfileRef (ui (run' m es)) = noiseProfileRef (ui m)
  /\ noiseFloorRef (ui (run' m es)) = noiseFloorRef (ui m)
  /\ isCalibrating (ui (run' m es)) = isCalibrating (ui m).
Proof.
  revert m. induction es as [| e es IH]; intros m Hall Hsp; [repeat split |].
  apply Forall_cons in Hall as [He Hes].
  destruct e; simpl in He; try contradiction; [| discriminate Hsp].
  rewrite run_cons. specialize (IH (step' m (PitchFrame input)) Hes Hsp).
  destruct IH as (-> & -> & -> & ->). simpl.
  destruct (pitchLoop m) as [env |]; [| repeat split].
  simpl. pose proof (updatePitch_refs env input (ui m)) as (-> & -> & -> & _).
  repeat split.
Qed.


(** The same calibration when [es] holds exactly the frames it still needs. *)
Lemma calibration_completes (es : list event) (m : Machine) (k M : nat)
  (p : list R) :
  calLoops m = [mkCalLoop k M] -> (1 <= k)%nat ->
  noiseProfileRef (ui m) = Some p -> length p = frequencyBinCount ->
  Forall (animation_frame frequencyBinCount) es ->
  (k < M)%nat -> (k + length (spectra_of es) = M)%nat ->
  calLoops (run' m es) = []
  /\ noiseProfileRef (ui (run' m es)) = Some (binwise_max p (spectra_of es))
  /\ noiseFloorRef (ui (run' m es))
     = TypedArray.max_of (binwise_max p (spectra_of es))
  /\ isCalibrating (ui (run' m es)) = false.
Proof.
  revert m k p. induction es as [| e es IH];
    intros m k p Hl Hk Hp Hlen Hall HkM Heq.
  - simpl in Heq. lia.
  - apply Forall_cons in Hall as [He Hes].
    rewrite run_cons. destruct e; simpl in He; try contradiction.
    + simpl in Heq |- *.
      assert (Hstep : calLoops (step' m (PitchFrame input)) = [mkCalLoop k M]
                /\ noiseProfileRef (ui (step' m (PitchFrame input))) = Some p).
      { simpl. destruct (pitchLoop m) as [env |]; [| split; assumption].
        simpl. pose proof (updatePitch_refs env input (ui m)) as (_ & -> & _).
        split; assumption. }
      destruct Hstep as (Hl' & Hp').
      apply (IH _ k p); assumption.
    + destruct He as [-> Hfd]. simpl in Heq. cbn [spectra_of length].
      destruct (decide (S k < M)%nat) as [Hmore | Hlast].
      * assert (Hstep : step' m (CalibrationFrame 0 frequencyData)
                  = mkMachine
                      (set_noiseProfileRef (Some (zip_with Rmax p frequencyData)) (ui m))
                      (pitchLoop m) [mkCalLoop (S k) M]).
        { simpl. unfold calibrationFrame. rewrite Hl. simpl.
          unfold updateCalibration. rewrite Hp. simpl.
          rewrite absorb_next by lia.
          destruct (decide (S k < M)%nat); [reflexivity | lia]. }
        rewrite Hstep.
        destruct (IH (mkMachine
                        (set_noiseProfileRef (Some (zip_with Rmax p frequencyData)) (ui m))
                        (pitchLoop m) [mkCalLoop (S k) M])
                     (S k) (zip_with Rmax p frequencyData))
          as (-> & -> & -> & ->);
          try reflexivity; try assumption; try lia; [| repeat split].
        rewrite length_zip_with. lia.
      * assert (Hstep : step' m (CalibrationFrame 0 frequencyData)
                  = mkMachine
                      (set_noiseFloorRef
                         (TypedArray.max_of (zip_with Rmax p frequencyData))
                         (set_isCalibrating false
                            (set_noiseProfileRef
                               (Some (zip_with Rmax p frequencyData)) (ui m))))
                      (pitchLoop m) []).
        { simpl. unfold calibrationFrame. rewrite Hl. simpl.
          unfold updateCalibration. rewrite Hp. simpl.
          rewrite absorb_next by lia.
          destruct (decide (S k < M)%nat); [lia | reflexivity]. }
        assert (Hnil : spectra_of es = []).
        { destruct (spectra_of es); [reflexivity | simpl in Heq; lia]. }
        destruct (pitch_frames_keep es (step' m (CalibrationFrame 0 frequencyData))
                    Hes Hnil) as (-> & -> & -> & ->).
        rewrite Hstep, Hnil. repeat split.
Qed.

(** On a spectrum of [frequencyBinCount] bins the first round does not throw. *)
Lemma calibrateNoise_returns (frequencyData : list R) (s : State) :
  length frequencyData = frequencyBinCount ->
  threw (snd (calibrateNoise frequencyBinCount frequencyData s)) = false.
Proof.
  intros Hlen. unfold calibrateNoise, updateCalibration.
  cbn [noiseProfileRef set_noiseProfileRef calibrationFrames maxCalibrationFrames].
  rewrite absorb_first
    by (unfold TypedArray.make; rewrite length_replicate; exact Hlen).
  destruct (decide _); reflexivity.
Qed.

(** The call [calibrateNoise()] itself: the old profile is replaced by zeros
    and the first spectrum is copied over them. *)
Lemma run_calibrateNoise_first (m : Machine) (first : list R) :
  calLoops m = [] -> length first = frequencyBinCount ->
  let m1 := run_calibrateNoise frequencyBinCount first m in
  noiseProfileRef (ui m1) = Some first
  /\ pitchLoop m1 = pitchLoop m
  /\ ((1 < calibrationTime (ui m) * 60)%nat ->
        calLoops m1 = [mkCalLoop 1 (calibrationTime (ui m) * 60)]
        /\ noiseFloorRef (ui m1) = noiseFloorRef (ui m)
        /\ isCalibrating (ui m1) = true)
  /\ (~ (1 < calibrationTime (ui m) * 60)%nat ->
        calLoops m1 = []
        /\ noiseFloorRef (ui m1) = TypedArray.max_of first
        /\ isCalibrating (ui m1) = false).
Proof.
  intros Hl Hlen. unfold run_calibrateNoise, calibrateNoise, updateCalibration.
  cbn [noiseProfileRef set_noiseProfileRef calibrationFrames maxCalibrationFrames].
  rewrite absorb_first
    by (unfold TypedArray.make; rewrite length_replicate; exact Hlen).
  destruct (decide (1 < calibrationTime (ui m) * 60)%nat) as [Hmore | Hlast];
    cbn; rewrite Hl; repeat split; intros; try reflexivity; lia.
Qed.


(** While [isCalibrating] is set, an event that is not a calibration frame and
    starts no calibration leaves the calibration state alone. *)
Lemma step_while_calibrating (m : Machine) (e : event) :
  isCalibrating (ui m) = true ->
  no_new_calibration frequencyBinCount e -> spectra_of [e] = [] ->
  calLoops (step' m e) = calLoops m
  /\ noiseProfileRef (ui (step' m e)) = noiseProfileRef (ui m)
  /\ noiseFloorRef (ui (step' m e)) = noiseFloorRef (ui m)
  /\ isCalibrating (ui (step' m e)) = true.
Proof.
  intros Hc He Hsp. destruct e; cbn [step]; simpl in He.
  - rewrite Hc. split; [reflexivity |]. split; [reflexivity |].
    split; [reflexivity | exact Hc].
  - subst checked. unfold handleCancelNoiseChange. cbn.
    split; [reflexivity |]. split; [reflexivity |].
    split; [reflexivity | exact Hc].
  - rewrite Hc, orb_true_r. split; [reflexivity |]. split; [reflexivity |].
    split; [reflexivity | exact Hc].
  - cbn. split; [reflexivity |]. split; [reflexivity |].
    split; [reflexivity | exact Hc].
  - destruct (pitchLoop m) as [env |].
    + cbn. pose proof (updatePitch_refs env input (ui m)) as (-> & -> & -> & _).
      split; [reflexivity |]. split; [reflexivity |].
      split; [reflexivity | exact Hc].
    + split; [reflexivity |]. split; [reflexivity |].
      split; [reflexivity | exact Hc].
  - discriminate Hsp.
Qed.

(** A round of the one pending loop that is not its last. *)
Lemma calibration_round (m : Machine) (k M : nat) (p frequencyData : list R) :
  calLoops m = [mkCalLoop k M] -> (1 <= k)%nat -> (S k < M)%nat ->
  noiseProfileRef (ui m) = Some p -> length frequencyData = length p ->
  step' m (CalibrationFrame 0 frequencyData)
  = mkMachine (set_noiseProfileRef (Some (zip_with Rmax p frequencyData)) (ui m))
      (pitchLoop m) [mkCalLoop (S k) M].
Proof.
  intros Hl Hk Hlt Hp Hlen. simpl. unfold calibrationFrame. rewrite Hl. simpl.
  unfold updateCalibration. rewrite Hp. simpl.
  rewrite absorb_next by lia.
  destruct (decide (S k < M)%nat); [reflexivity | lia].
Qed.

(** The last round of the first pending loop: the loop ends, [isCalibrating]
    is cleared and the floor is assigned from the profile as it is then. *)
Lemma calibration_last_round (m : Machine) (k M : nat) (others : list CalLoop)
  (p frequencyData : list R) :
  calLoops m = mkCalLoop k M :: others -> (1 <= k)%nat -> ~ (S k < M)%nat ->
  noiseProfileRef (ui m) = Some p -> length frequencyData = length p ->
  let m' := step' m (CalibrationFrame 0 frequencyData) in
  calLoops m' = others
  /\ noiseProfileRef (ui m') = Some (zip_with Rmax p frequencyData)
  /\ noiseFloorRef (ui m') = TypedArray.max_of (zip_with Rmax p frequencyData)
  /\ isCalibrating (ui m') = false
  /\ pitchLoop m' = pitchLoop m
  /\ pitchData (ui m') = pitchData (ui m).
Proof.
  intros Hl Hk Hlast Hp Hlen. simpl. unfold calibrationFrame. rewrite Hl. simpl.
  unfold updateCalibration. rewrite Hp. simpl.
  rewrite absorb_next by lia.
  destruct (decide (S k < M)%nat); [lia |]. cbn.
  split; [apply drop_0 |]. split; [reflexivity |]. split; [reflexivity |].
  split; [reflexivity |]. split; reflexivity.
Qed.

(** A calibration that has consumed [k >= 1] frames and will not end within
    [es], when no event of [es] starts another calibration: the profile is the
    running maximum, nothing else of the calibration state moves. *)
Lemma calibration_undisturbed (es : list event) (m : Machine) (k M : nat)
  (p : list R) :
  calLoops m = [mkCalLoop k M] -> (1 <= k)%nat ->
  noiseProfileRef (ui m) = Some p -> length p = frequencyBinCount ->
  isCalibrating (ui m) = true ->
  Forall (no_new_calibration frequencyBinCount) es ->
  (k + length (spectra_of es) < M)%nat ->
  calLoops (run' m es) = [mkCalLoop (k + length (spectra_of es)) M]
  /\ noiseProfileRef (ui (run' m es)) = Some (binwise_max p (spectra_of es))
  /\ noiseFloorRef (ui (run' m es)) = noiseFloorRef (ui m)
  /\ isCalibrating (ui (run' m es)) = true.
Proof.
  revert m k p. induction es as [| e es IH];
    intros m k p Hl Hk Hp Hlen Hc Hall Hlt.
  - simpl. rewrite Nat.add_0_r.
    split; [exact Hl |]. split; [exact Hp |]. split; [reflexivity | exact Hc].
  - apply Forall_cons in Hall as [He Hes]. rewrite run_cons.
    destruct (spectra_of [e]) as [| fd rest] eqn:Hsp.
    + (* not a calibration frame *)
      destruct (step_while_calibrating m e Hc He Hsp) as (Hl' & Hp' & Hf' & Hc').
      assert (Hsame : spectra_of (e :: es) = spectra_of es).
      { change (e :: es) with ([e] ++ es). rewrite spectra_of_app, Hsp.
        reflexivity. }
      rewrite Hsame in *. rewrite <- Hf'.
      apply (IH (step' m e) k p); try assumption; congruence.
    + (* a round of the loop *)
      destruct e; try discriminate Hsp. simpl in He. destruct He as [-> Hfd].
      simpl in Hlt. cbn [spectra_of length].
      rewrite (calibration_round m k M p frequencyData Hl Hk ltac:(lia) Hp
                 ltac:(lia)).
      replace (k + S (length (spectra_of es)))%nat
        with (S k + length (spectra_of es))%nat by lia.
      destruct (IH (mkMachine
                      (set_noiseProfileRef (Some (zip_with Rmax p frequencyData)) (ui m))
                      (pitchLoop m) [mkCalLoop (S k) M])
                   (S k) (zip_with Rmax p frequencyData))
        as (E1 & E2 & E3 & E4);
        try reflexivity; try assumption; try lia;
        [rewrite length_zip_with; lia |].
      rewrite E1, E2, E3, E4.
      split; [reflexivity |]. split; [reflexivity |]. split; reflexivity.
Qed.

Lemma spectra_of_bins (es : list event) :
  Forall (no_new_calibration frequencyBinCount) es ->
  Forall (fun f => length f = frequencyBinCount) (spectra_of es).
Proof.
  induction es as [| e es IH]; intros Hall; [constructor |].
  apply Forall_cons in Hall as [He Hes].
  destruct e; simpl in He |- *; try (apply IH, Hes).
  constructor; [apply He | apply IH, Hes].
Qed.

(** The first tick that [startListening] runs after the call leaves the
    calibration as the call left it. *)
Lemma calibration_started_state (m : Machine) (first : list R) (m1 : Machine) :
  calibration_started frequencyBinCount findPitch m first m1 ->
  let m0 := run_calibrateNoise frequencyBinCount first m in
  calLoops m1 = calLoops m0
  /\ noiseProfileRef (ui m1) = noiseProfileRef (ui m0)
  /\ noiseFloorRef (ui m1) = noiseFloorRef (ui m0)
  /\ isCalibrating (ui m1) = isCalibrating (ui m0).
Proof.
  intros [-> | (env & input & ->)]; cbv zeta.
  - split; [reflexivity |]. split; [reflexivity |]. split; reflexivity.
  - unfold listen. cbn.
    pose proof (updatePitch_refs env input
                  (ui (run_calibrateNoise frequencyBinCount first m)))
      as (-> & -> & -> & _).
    split; [reflexivity |]. split; [reflexivity |]. split; reflexivity.
Qed.

(** A calibration run that no other calibration overlaps, from the call of
    [calibrateNoise] on [first] up to, not including, its last round. *)
Lemma calibration_run_in_progress (m : Machine) (first : list R) (m1 : Machine)
  (es : list event) :
  calLoops m = [] -> length first = frequencyBinCount ->
  calibration_started frequencyBinCount findPitch m first m1 ->
  Forall (no_new_calibration frequencyBinCount) es ->
  (S (length (spectra_of es)) < rounds (ui m))%nat ->
  calLoops (run' m1 es)
  = [mkCalLoop (S (length (spectra_of es))) (calibrationTime (ui m) * 60)]
  /\ noiseProfileRef (ui (run' m1 es)) = Some (binwise_max first (spectra_of es))
  /\ noiseFloorRef (ui (run' m1 es)) = noiseFloorRef (ui m)
  /\ isCalibrating (ui (run' m1 es)) = true.
Proof.
  intros Hl Hlen Hstart Hall Hlt. unfold rounds in Hlt.
  destruct (run_calibrateNoise_first m first Hl Hlen) as (Hp1 & _ & Hmore & _).
  destruct (Hmore ltac:(lia)) as (Hl1 & Hf1 & Hc1).
  destruct (calibration_started_state m first m1 Hstart) as (S1 & S2 & S3 & S4).
  rewrite <- S1 in Hl1. rewrite <- S2 in Hp1. rewrite <- S3 in Hf1.
  rewrite <- S4 in Hc1.
  destruct (calibration_undisturbed es m1 1 (calibrationTime (ui m) * 60) first
              Hl1 ltac:(lia) Hp1 Hlen Hc1 Hall ltac:(lia)) as (E1 & E2 & E3 & E4).
  rewrite E1, E2, E3, E4, Hf1.
  split; [reflexivity |]. split; [reflexivity |]. split; reflexivity.
Qed.

(** The last round of such a run. *)
Lemma calibration_run_completes (m : Machine) (first : list R) (m1 : Machine)
  (es : list event) (last : list R) :
  calLoops m = [] -> length first = frequencyBinCount ->
  calibration_started frequencyBinCount findPitch m first m1 ->
  Forall (no_new_calibration frequencyBinCount) es ->
  length last = frequencyBinCount ->
  S (S (length (spectra_of es))) = rounds (ui m) ->
  let m' := step' (run' m1 es) (CalibrationFrame 0 last) in
  let final := binwise_max first (spectra_of es ++ [last]) in
  calLoops m' = []
  /\ noiseProfileRef (ui m') = Some final
  /\ noiseFloorRef (ui m') = TypedArray.max_of final
  /\ isCalibrating (ui m') = false.
Proof.
  intros Hl Hlen Hstart Hall Hlast Heq.
  destruct (calibration_run_in_progress m first m1 es Hl Hlen Hstart Hall
              ltac:(lia)) as (E1 & E2 & _ & _).
  unfold rounds in Heq.
  pose proof (spectra_of_bins es Hall) as Hbins.
  assert (Hplen : length (binwise_max first (spectra_of es)) = length first).
  { apply binwise_max_length. eapply Forall_impl; [exact Hbins |].
    simpl. intros f Hf. lia. }
  destruct (calibration_last_round _ _ _ [] _ last E1 ltac:(lia) ltac:(lia) E2
              ltac:(lia)) as (F1 & F2 & F3 & F4 & _).
  cbv zeta. rewrite binwise_max_snoc, F1, F2, F3, F4.
  split; [reflexivity |]. split; [reflexivity |]. split; reflexivity.
Qed.


(** ** The noise floor between calibrations *)

Lemma updateCalibration_keeps (l : CalLoop) (frequencyData : list R) (s : State) :
  calibrationTime (fst (updateCalibration l frequencyData s)) = calibrationTime s
  /\ pitchData (fst (updateCalibration l frequencyData s)) = pitchData s
  /\ currentNote (fst (updateCalibration l frequencyData s)) = currentNote s
  /\ (snd (updateCalibration l frequencyData s) <> Ended ->
        noiseFloorRef (fst (updateCalibration l frequencyData s)) = noiseFloorRef s).
Proof.
  unfold updateCalibration.
  destruct (noiseProfileRef s) as [profile |]; [| repeat split].
  destruct (absorb _ _ _) as [profile' |]; [| repeat split].
  destruct (decide _); repeat split. cbn. intros H. contradiction.
Qed.

Lemma run_calibrateNoise_keeps (frequencyData : list R) (m : Machine) :
  let m1 := run_calibrateNoise frequencyBinCount frequencyData m in
  calibrationTime (ui m1) = calibrationTime (ui m)
  /\ pitchData (ui m1) = pitchData (ui m)
  /\ currentNote (ui m1) = currentNote (ui m)
  /\ pitchLoop m1 = pitchLoop m
  /\ (length (calLoops m) <= length (calLoops m1))%nat
  /\ ((1 < calibrationTime (ui m) * 60)%nat ->
        noiseFloorRef (ui m1) = noiseFloorRef (ui m)).
Proof.
  unfold run_calibrateNoise, calibrateNoise, updateCalibration.
  cbn [noiseProfileRef set_noiseProfileRef calibrationFrames maxCalibrationFrames].
  destruct (absorb _ _ _) as [profile' |];
    [| cbn; rewrite length_app; cbn; repeat split; intros; lia].
  destruct (decide (1 < calibrationTime (ui m) * 60)%nat);
    cbn; rewrite length_app; cbn; repeat split; intros; lia.
Qed.

Lemma listen_keeps (env : Env) (input : list R) (m : Machine) :
  calibrationTime (ui (listen findPitch env input m)) = calibrationTime (ui m)
  /\ noiseFloorRef (ui (listen findPitch env input m)) = noiseFloorRef (ui m)
  /\ noiseProfileRef (ui (listen findPitch env input m)) = noiseProfileRef (ui m)
  /\ pitchData (ui (listen findPitch env input m)) = pitchData (tick env input (ui m))
  /\ currentNote (ui (listen findPitch env input m))
     = currentNote (tick env input (ui m))
  /\ calLoops (listen findPitch env input m) = calLoops m.
Proof.
  unfold listen. cbn.
  pose proof (updatePitch_refs env input (ui m)) as (-> & -> & _ & _ & _ & -> & _).
  repeat split.
Qed.

(** The four ways [startListening] can go. *)
Lemma startListening_cases (granted : bool) (input frequencyData : list R)
  (m : Machine) :
  let env := mkEnv (cancelNoise (ui m)) (smoothness (ui m)) in
  let m' := startListening frequencyBinCount findPitch granted input frequencyData m in
  m' = m
  \/ (cancelNoise (ui m) = false /\ m' = listen findPitch env input m)
  \/ (cancelNoise (ui m) = true
      /\ m' = run_calibrateNoise frequencyBinCount frequencyData m)
  \/ (cancelNoise (ui m) = true
      /\ threw (snd (calibrateNoise frequencyBinCount frequencyData (ui m))) = false
      /\ m' = listen findPitch env input
                (run_calibrateNoise frequencyBinCount frequencyData m)).
Proof.
  unfold startListening. destruct granted; [| left; reflexivity].
  destruct (cancelNoise (ui m)); [| right; left; split; reflexivity].
  destruct (threw _) eqn:Ht.
  - right. right. left. split; reflexivity.
  - right. right. right. repeat split.
Qed.




(** ** The gate's [accept] step *)

Lemma accepted_accept (cancelNoise : bool) (noiseFloor : xreal) (pitch : R) :
  accept cancelNoise noiseFloor pitch ->
  accepted cancelNoise noiseFloor (PitchNum pitch) = Some pitch.
Proof.
  unfold accept, accepted, above_floor. intros [-> | H]; [reflexivity |].
  destruct noiseFloor as [| F]; [rewrite orb_true_r; reflexivity |].
  rewrite bool_decide_eq_true_2 by exact H. rewrite orb_true_r. reflexivity.
Qed.

Lemma accepted_reject (cancelNoise : bool) (noiseFloor : xreal) (pitch : R) :
  ~ accept cancelNoise noiseFloor pitch ->
  accepted cancelNoise noiseFloor (PitchNum pitch) = None.
Proof.
  unfold accept, accepted, above_floor. intros H.
  destruct cancelNoise; [| exfalso; apply H; left; reflexivity].
  destruct noiseFloor as [| F]; [exfalso; apply H; right; exact I |].
  rewrite bool_decide_eq_false_2; [reflexivity |].
  intros HF. apply H. right. exact HF.
Qed.

Lemma nextPitchData_smooth (r : nat) (pitch : R) (prevData : list R) :
  nextPitchData r pitch prevData
  = JS.slice_from (smooth (prevData ++ [pitch]) r) (-100).
Proof.
  unfold nextPitchData, smooth. destruct (decide (0 < r)%nat); reflexivity.
Qed.

Lemma nextPitchData_radius_0_last (pitch : R) (prevData : list R) :
  last (nextPitchData 0 pitch prevData) = Some pitch.
Proof.
  rewrite nextPitchData_smooth, slice_from_last_100.
  change (smooth (prevData ++ [pitch]) 0) with (prevData ++ [pitch]).
  rewrite drop_app_le by (rewrite length_app; simpl; lia).
  apply last_snoc.
Qed.

(** One tick as a function of the flag that the closure of the pitch loop
    holds: the estimate enters the history and becomes the current note
    exactly when it is a number and the flag is clear or the estimate is
    strictly above the noise floor: then the history is the appended list,
    smoothed and truncated, and the note is that of the estimate (with radius
    0 the estimate is the newest entry); a missing estimate, and one at or
    below the floor with the flag set, leave the state as it was. *)
Lemma updatePitch_by_flag (env : Env) (input : list R) (s : State) :
  let estimate :=
    findPitch (gate_apply (env_cancelNoise env) (noiseProfileRef s) input) in
  (forall pitch : R,
     estimate = PitchNum pitch ->
     accept (env_cancelNoise env) (noiseFloorRef s) pitch ->
     pitchData (tick env input s)
     = JS.slice_from (smooth (pitchData s ++ [pitch]) (env_smoothness env)) (-100)
     /\ currentNote (tick env input s) = getNote pitch
     /\ (env_smoothness env = 0%nat ->
           last (pitchData (tick env input s)) = Some pitch))
  /\ (forall pitch : R,
        estimate = PitchNum pitch ->
        ~ accept (env_cancelNoise env) (noiseFloorRef s) pitch ->
        tick env input s = s)
  /\ (forall pitch F : R,
        estimate = PitchNum pitch ->
        env_cancelNoise env = true -> noiseFloorRef s = Finite F ->
        (pitch <= F -> tick env input s = s)
        /\ (F < pitch -> currentNote (tick env input s) = getNote pitch))
  /\ (estimate = PitchNull \/ estimate = PitchNaN -> tick env input s = s).
Proof.
  intros estimate. unfold updatePitch. fold estimate.
  split; [| split; [| split]].
  - intros pitch -> Hacc. rewrite (accepted_accept _ _ _ Hacc). cbn.
    rewrite nextPitchData_smooth. repeat split.
    intros ->. rewrite <- nextPitchData_smooth. apply nextPitchData_radius_0_last.
  - intros pitch -> Hrej. rewrite (accepted_reject _ _ _ Hrej). reflexivity.
  - intros pitch F -> Hc HF. split.
    + intros Hle. rewrite accepted_reject; [reflexivity |].
      unfold accept. rewrite Hc, HF. intros [? | ?]; [discriminate | lra].
    + intros Hlt. rewrite accepted_accept; [reflexivity |].
      unfold accept. rewrite HF. right. exact Hlt.
  - intros [-> | ->]; reflexivity.
Qed.

(** ** Pitch frames during a calibration *)


(** ** The published history *)

Lemma history_after_snoc (r : nat) (ps : list R) (pitch : R) :
  history_after r (ps ++ [pitch]) = nextPitchData r pitch (history_after r ps).
Proof. unfold history_after. rewrite fold_left_app. reflexivity. Qed.

Lemma history_after_radius_0 (ps : list R) :
  history_after 0 ps = drop (length ps - 100) ps.
Proof.
  induction ps as [| pitch ps IH] using rev_ind; [reflexivity |].
  rewrite history_after_snoc, IH, nextPitchData_smooth, slice_from_last_100.
  change (smooth (drop (length ps - 100) ps ++ [pitch]) 0)
    with (drop (length ps - 100) ps ++ [pitch]).
  rewrite !length_app, length_drop. simpl length.
  rewrite drop_app_le by (rewrite length_drop; lia).
  rewrite drop_app_le by lia.
  rewrite drop_drop. f_equal. f_equal. lia.
Qed.

Lemma nextPitchData_drop (r : nat) (pitch : R) (prevData : list R) :
  nextPitchData r pitch prevData
  = drop (S (length prevData) - 100) (smooth (prevData ++ [pitch]) r).
Proof.
  rewrite nextPitchData_smooth, slice_from_last_100, smooth_length, length_app.
  cbn [length]. f_equal. lia.
Qed.

Lemma nextPitchData_length (r : nat) (pitch : R) (prevData : list R) :
  length (nextPitchData r pitch prevData) = Nat.min 100 (S (length prevData)).
Proof.
  rewrite nextPitchData_drop, length_drop, smooth_length, length_app.
  cbn [length]. lia.
Qed.

Lemma tick_pitchData (env : Env) (input : list R) (s : State) :
  pitchData (tick env input s) = pitchData s
  \/ exists pitch : R,
       pitchData (tick env input s)
       = nextPitchData (env_smoothness env) pitch (pitchData s).
Proof.
  unfold updatePitch. destruct (accepted _ _ _) as [pitch |]; [| left; reflexivity].
  right. exists pitch. reflexivity.
Qed.

Lemma tick_history_bound (env : Env) (input : list R) (s : State) :
  (length (pitchData s) <= 100)%nat ->
  (length (pitchData (tick env input s)) <= 100)%nat.
Proof.
  intros H. destruct (tick_pitchData env input s) as [-> | [pitch ->]]; [exact H |].
  rewrite nextPitchData_length. lia.
Qed.

Lemma step_history_bound (m : Machine) (e : event) :
  (length (pitchData (ui m)) <= 100)%nat ->
  (length (pitchData (ui (step' m e))) <= 100)%nat.
Proof.
  intros H. destruct e; cbn [step].
  - destruct (isCalibrating (ui m)); [exact H |].
    destruct (isListening (ui m)); [simpl; lia |].
    pose proof (run_calibrateNoise_keeps frequencyData m) as (_ & Hd & _).
    destruct (startListening_cases granted input frequencyData m)
      as [-> | [[_ ->] | [[_ ->] | (_ & _ & ->)]]].
    + exact H.
    + destruct (listen_keeps (mkEnv (cancelNoise (ui m)) (smoothness (ui m)))
                  input m) as (_ & _ & _ & -> & _).
      apply tick_history_bound, H.
    + rewrite Hd. exact H.
    + destruct (listen_keeps (mkEnv (cancelNoise (ui m)) (smoothness (ui m))) input
                  (run_calibrateNoise frequencyBinCount frequencyData m))
        as (_ & _ & _ & -> & _).
      apply tick_history_bound. rewrite Hd. exact H.
  - unfold handleCancelNoiseChange.
    destruct (checked && isListening (ui m)); [| exact H].
    pose proof (run_calibrateNoise_keeps frequencyData
                  (with_ui (set_cancelNoise checked (ui m)) m)) as (_ & -> & _).
    exact H.
  - destruct (negb (isListening (ui m)) || isCalibrating (ui m)); [exact H |].
    unfold handleCalibrate. destruct (isListening (ui m)); [| exact H].
    pose proof (run_calibrateNoise_keeps frequencyData m) as (_ & -> & _). exact H.
  - exact H.
  - destruct (pitchLoop m) as [env |]; [| exact H]. cbn.
    apply tick_history_bound, H.
  - unfold calibrationFrame. destruct (calLoops m !! k) as [l |]; [| exact H].
    pose proof (updateCalibration_keeps l frequencyData (ui m)) as (_ & Hd & _).
    destruct (updateCalibration l frequencyData (ui m)). cbn in *.
    rewrite Hd. exact H.
Qed.

Lemma run_calibrateNoise_smoothness (frequencyData : list R) (m : Machine) :
  smoothness (ui (run_calibrateNoise frequencyBinCount frequencyData m))
  = smoothness (ui m).
Proof.
  unfold run_calibrateNoise, calibrateNoise, updateCalibration.
  cbn [noiseProfileRef set_noiseProfileRef].
  destruct (absorb _ _ _); [destruct (decide _) |]; reflexivity.
Qed.

(** Every event but a move of the slider keeps the radius of the running loop
    equal to the current one; a loop is created with the current radius. *)
Lemma step_radius_is_current (m : Machine) (e : event) :
  keeps_radius e \/ pitchLoop m = None ->
  radius_is_current m -> radius_is_current (step' m e).
Proof.
  unfold radius_is_current. intros He Hm env.
  destruct e; cbn [step].
  - destruct (isCalibrating (ui m)); [apply Hm |].
    destruct (isListening (ui m)); [discriminate |].
    destruct (startListening_cases granted input frequencyData m)
      as [-> | [[_ ->] | [[_ ->] | (_ & _ & ->)]]].
    + apply Hm.
    + unfold listen. cbn.
      pose proof (updatePitch_refs (mkEnv (cancelNoise (ui m)) (smoothness (ui m)))
                    input (ui m)) as (_ & _ & _ & _ & _ & _ & ->).
      intros H. injection H as <-. reflexivity.
    + rewrite run_calibrateNoise_smoothness.
      pose proof (run_calibrateNoise_keeps frequencyData m) as (_ & _ & _ & -> & _).
      apply Hm.
    + unfold listen. cbn.
      match goal with |- context [updatePitch findPitch ?e ?i ?st] =>
        pose proof (updatePitch_refs e i st) as (_ & _ & _ & _ & _ & _ & ->) end.
      rewrite run_calibrateNoise_smoothness.
      intros H. injection H as <-. reflexivity.
  - unfold handleCancelNoiseChange.
    destruct (checked && isListening (ui m)); [| apply Hm].
    rewrite run_calibrateNoise_smoothness.
    pose proof (run_calibrateNoise_keeps frequencyData
                  (with_ui (set_cancelNoise checked (ui m)) m))
      as (_ & _ & _ & -> & _).
    apply Hm.
  - destruct (negb (isListening (ui m)) || isCalibrating (ui m)); [apply Hm |].
    unfold handleCalibrate. destruct (isListening (ui m)); [| apply Hm].
    rewrite run_calibrateNoise_smoothness.
    pose proof (run_calibrateNoise_keeps frequencyData m) as (_ & _ & _ & -> & _).
    apply Hm.
  - destruct He as [He | He]; [contradiction |]. cbn. rewrite He. discriminate.
  - destruct (pitchLoop m) as [env0 |] eqn:Hloop; [| rewrite Hloop; discriminate].
    cbn. rewrite Hloop.
    pose proof (updatePitch_refs env0 input (ui m)) as (_ & _ & _ & _ & _ & _ & ->).
    apply Hm.
  - unfold calibrationFrame. destruct (calLoops m !! k) as [l |]; [| apply Hm].
    assert (Hs : smoothness (fst (updateCalibration l frequencyData (ui m)))
                 = smoothness (ui m)).
    { unfold updateCalibration.
      destruct (noiseProfileRef (ui m)); [| reflexivity].
      destruct (absorb _ _ _); [destruct (decide _) |]; reflexivity. }
    destruct (updateCalibration l frequencyData (ui m)). cbn in *.
    rewrite Hs. apply Hm.
Qed.

(** C6, as the code has it, while the radius of the running loop is the
    current one.  That is so in the initial state, it stays so through every
    event but a move of the slider, and through a move of the slider while no
    loop is running.  Then, after an accepted estimate, the published history
    is the previously published history (itself smoothed and truncated) with
    the new pitch appended, smoothed as a whole with the current radius and
    truncated to its last 100 entries. *)
Theorem C6_history_from_published_history :
  radius_is_current initialMachine
  /\ (forall (m : Machine) (e : event),
        keeps_radius e \/ pitchLoop m = None ->
        radius_is_current m -> radius_is_current (step' m e))
  /\ (forall (m : Machine) (env : Env) (input : list R) (pitch : R),
        radius_is_current m -> pitchLoop m = Some env ->
        accepted (env_cancelNoise env) (noiseFloorRef (ui m))
          (findPitch (gate_apply (env_cancelNoise env) (noiseProfileRef (ui m)) input))
        = Some pitch ->
        pitchData (ui (step' m (PitchFrame input)))
        = publish_from_raw (pitchData (ui m) ++ [pitch]) (smoothness (ui m))).
Proof.
  split; [| split].
  - intros env H. discriminate H.
  - apply step_radius_is_current.
  - intros m env input pitch Hcur Hloop Hacc. cbn [step]. rewrite Hloop. cbn.
    unfold updatePitch. rewrite Hacc. cbn. rewrite <- (Hcur env Hloop).
    apply nextPitchData_smooth.
Qed.

(** C7: whatever happens to the component, the history never holds more
    than 100 entries; the updater keeps the tail of the appended list, so what
    it drops is dropped from the front, and a full history with radius 0 loses
    its oldest entry and gains the new pitch at the end. *)
Theorem C7_history_bounded_fifo :
  (forall es : list event,
     (length (pitchData (ui (run' initialMachine es))) <= 100)%nat)
  /\ (forall (r : nat) (pitch : R) (prevData : list R),
        nextPitchData r pitch prevData
        = drop (S (length prevData) - 100) (smooth (prevData ++ [pitch]) r)
        /\ length (nextPitchData r pitch prevData)
           = Nat.min 100 (S (length prevData)))
  /\ (forall (pitch : R) (prevData : list R),
        length prevData = 100%nat ->
        nextPitchData 0 pitch prevData = drop 1 prevData ++ [pitch]).
Proof.
  split; [| split].
  - intros es.
    assert (Hinv : forall m, (length (pitchData (ui m)) <= 100)%nat ->
                     (length (pitchData (ui (run' m es))) <= 100)%nat).
    { induction es as [| e es IH]; intros m Hm; [exact Hm |].
      rewrite run_cons. apply IH, step_history_bound, Hm. }
    apply Hinv. simpl. lia.
  - intros r pitch prevData. split;
      [apply nextPitchData_drop | apply nextPitchData_length].
  - intros pitch prevData Hlen. rewrite nextPitchData_drop, Hlen.
    change (smooth (prevData ++ [pitch]) 0) with (prevData ++ [pitch]).
    rewrite drop_app_le by lia. reflexivity.
Qed.

(** ** Stopping and starting again *)

Lemma smooth_single (pitch : R) (r : nat) : smooth [pitch] r = [pitch].
Proof.
  apply list_eq. intros [| i].
  - rewrite smooth_lookup by (simpl; lia).
    unfold mean_of_positions, window_lo, window_hi.
    replace (Z.to_nat (Z.max 0 (Z.of_nat 0 - Z.of_nat r))) with 0%nat by lia.
    replace (Nat.min (length [pitch]) (0 + r + 1)) with 1%nat by (cbn [length]; lia).
    simpl. f_equal. unfold TypedArray.get. simpl. lra.
  - rewrite lookup_ge_None_2 by (rewrite smooth_length; simpl; lia). reflexivity.
Qed.

Lemma nextPitchData_first (r : nat) (pitch : R) : nextPitchData r pitch [] = [pitch].
Proof. rewrite nextPitchData_drop. simpl. apply smooth_single. Qed.

(** C8, as the code has it: [stopListening] empties the history and the
    current note and cancels the pitch loop, and leaves the noise profile and
    the noise floor as they are.  After a [startListening] that follows, the
    history holds at most the estimate of the tick that [startListening] runs
    at once; the noise floor of the prior session is still in place, and so is
    its noise profile unless noise cancellation is enabled, in which case the
    calibration that starts replaces it by the first spectrum. *)
Theorem C8_stop_then_start (m : Machine) (granted : bool)
  (input frequencyData : list R) :
  let m0 := stopListening m in
  let m1 := startListening frequencyBinCount findPitch granted input frequencyData m0 in
  (pitchData (ui m0) = [] /\ currentNote (ui m0) = ""%string
   /\ isListening (ui m0) = false /\ pitchLoop m0 = None)
  /\ (noiseProfileRef (ui m0) = noiseProfileRef (ui m)
      /\ noiseFloorRef (ui m0) = noiseFloorRef (ui m))
  /\ (pitchData (ui m1) = []
      \/ exists pitch : R,
           pitchData (ui m1) = [pitch] /\ currentNote (ui m1) = getNote pitch)
  /\ (cancelNoise (ui m) = false ->
        noiseProfileRef (ui m1) = noiseProfileRef (ui m)
        /\ noiseFloorRef (ui m1) = noiseFloorRef (ui m))
  /\ ((1 < calibrationTime (ui m) * 60)%nat ->
        noiseFloorRef (ui m1) = noiseFloorRef (ui m))
  /\ (cancelNoise (ui m) = true -> granted = true -> calLoops m = [] ->
        length frequencyData = frequencyBinCount ->
        noiseProfileRef (ui m1) = Some frequencyData).
Proof.
  intros m0 m1. split; [repeat split |]. split; [repeat split |].
  set (env := mkEnv (cancelNoise (ui m0)) (smoothness (ui m0))).
  pose proof (run_calibrateNoise_keeps frequencyData m0) as (_ & Hd & Hn & _ & _ & Hf).
  pose proof (listen_keeps env input m0) as (_ & Lf & Lp & Ld & Ln & _).
  pose proof (listen_keeps env input
                (run_calibrateNoise frequencyBinCount frequencyData m0))
    as (_ & Lf' & Lp' & Ld' & Ln' & _).
  assert (Htick : forall s, pitchData s = [] ->
            pitchData (tick env input s) = []
            \/ exists pitch : R,
                 pitchData (tick env input s) = [pitch]
                 /\ currentNote (tick env input s) = getNote pitch).
  { intros s Hs. unfold updatePitch.
    destruct (accepted _ _ _) as [pitch |]; [| left; exact Hs].
    right. exists pitch. cbn. rewrite Hs, nextPitchData_first. split; reflexivity. }
  subst env. split; [| split; [| split]].
  - destruct (startListening_cases granted input frequencyData m0)
      as [E | [[_ E] | [[_ E] | (_ & _ & E)]]]; fold m1 in E; rewrite E.
    + left. reflexivity.
    + rewrite Ld, Ln. apply Htick. reflexivity.
    + left. rewrite Hd. reflexivity.
    + rewrite Ld', Ln'. apply Htick. rewrite Hd. reflexivity.
  - intros Hc.
    destruct (startListening_cases granted input frequencyData m0)
      as [E | [[_ E] | [[Hc' _] | (Hc' & _)]]];
      try (change (cancelNoise (ui m0)) with (cancelNoise (ui m)) in Hc'; congruence);
      fold m1 in E; rewrite E.
    + split; reflexivity.
    + rewrite Lf, Lp. split; reflexivity.
  - intros HT.
    destruct (startListening_cases granted input frequencyData m0)
      as [E | [[_ E] | [[_ E] | (_ & _ & E)]]]; fold m1 in E; rewrite E.
    + reflexivity.
    + rewrite Lf. reflexivity.
    + apply Hf, HT.
    + rewrite Lf'. apply Hf, HT.
  - intros Hc -> Hl Hlen. subst m1. unfold startListening.
    change (cancelNoise (ui m0)) with (cancelNoise (ui m)). rewrite Hc.
    rewrite (calibrateNoise_returns frequencyData (ui m0) Hlen).
    match goal with |- noiseProfileRef (ui (listen _ ?e ?i ?mm)) = _ =>
      destruct (listen_keeps e i mm) as (_ & _ & -> & _) end.
    apply (run_calibrateNoise_first m0 frequencyData Hl Hlen).
Qed.

(** A restart never brings the profile back to "none". *)
Lemma restart_keeps_a_profile (m : Machine) (granted : bool)
  (input frequencyData : list R) :
  noiseProfileRef (ui m) <> None ->
  noiseProfileRef
    (ui (startListening frequencyBinCount findPitch granted input frequencyData
           (stopListening m))) <> None.
Proof.
  intros H.
  assert (Hcal : noiseProfileRef
                   (ui (run_calibrateNoise frequencyBinCount frequencyData
                          (stopListening m))) <> None).
  { unfold run_calibrateNoise, calibrateNoise, updateCalibration.
    cbn [noiseProfileRef set_noiseProfileRef].
    destruct (absorb _ _ _); [| cbn; discriminate].
    destruct (decide _); cbn; discriminate. }
  destruct (startListening_cases granted input frequencyData (stopListening m))
    as [-> | [[_ ->] | [[_ ->] | (_ & _ & ->)]]].
  - exact H.
  - destruct (listen_keeps
                (mkEnv (cancelNoise (ui (stopListening m)))
                   (smoothness (ui (stopListening m)))) input (stopListening m))
      as (_ & _ & -> & _).
    exact H.
  - exact Hcal.
  - destruct (listen_keeps
                (mkEnv (cancelNoise (ui (stopListening m)))
                   (smoothness (ui (stopListening m)))) input
                (run_calibrateNoise frequencyBinCount frequencyData (stopListening m)))
      as (_ & _ & -> & _).
    exact Hcal.
Qed.

(** After a restart the noise floor is the one from before the stop. *)
Lemma restart_keeps_floor (m : Machine) (granted : bool)
  (input frequencyData : list R) :
  (1 < calibrationTime (ui m) * 60)%nat ->
  noiseFloorRef
    (ui (startListening frequencyBinCount findPitch granted input frequencyData
           (stopListening m)))
  = noiseFloorRef (ui m).
Proof.
  intros HT.
  pose proof (run_calibrateNoise_keeps frequencyData (stopListening m))
    as (_ & _ & _ & _ & _ & Hf).
  destruct (startListening_cases granted input frequencyData (stopListening m))
    as [-> | [[_ ->] | [[_ ->] | (_ & _ & ->)]]].
  - reflexivity.
  - destruct (listen_keeps
                (mkEnv (cancelNoise (ui (stopListening m)))
                   (smoothness (ui (stopListening m)))) input (stopListening m))
      as (_ & -> & _).
    reflexivity.
  - apply Hf, HT.
  - destruct (listen_keeps
                (mkEnv (cancelNoise (ui (stopListening m)))
                   (smoothness (ui (stopListening m)))) input
                (run_calibrateNoise frequencyBinCount frequencyData (stopListening m)))
      as (_ & -> & _).
    apply Hf, HT.
Qed.

(** After a restart without noise cancellation the noise profile is the one
    from before the stop. *)
Lemma restart_keeps_profile (m : Machine) (granted : bool)
  (input frequencyData : list R) :
  cancelNoise (ui m) = false ->
  noiseProfileRef
    (ui (startListening frequencyBinCount findPitch granted input frequencyData
           (stopListening m)))
  = noiseProfileRef (ui m).
Proof.
  intros Hc.
  destruct (startListening_cases granted input frequencyData (stopListening m))
    as [-> | [[_ ->] | [[Hc' _] | (Hc' & _)]]];
    try (change (cancelNoise (ui (stopListening m))) with (cancelNoise (ui m)) in Hc';
         congruence).
  - reflexivity.
  - destruct (listen_keeps
                (mkEnv (cancelNoise (ui (stopListening m)))
                   (smoothness (ui (stopListening m)))) input (stopListening m))
      as (_ & _ & -> & _).
    reflexivity.
Qed.

End Properties.

(** ** The reference notes *)

(** C1: the code evaluated at the reference frequencies of the spec.  The
    spec's notes are A4, A5, A3 and (about) C4; [getNote] prints C4, C5, C3 and
    D#3: index 0 of [NOTES], which 440 Hz reaches, is "C", and the octave
    number changes at 440 Hz times a power of two. *)
Theorem C1_getNote_reference_frequencies :
  getNote 440 = "C4"%string /\ getNote 880 = "C5"%string
  /\ getNote 220 = "C3"%string /\ getNote 261.63 = "D#3"%string
  /\ getNote 440 <> note_text "A" 4
  /\ getNote 880 <> note_text "A" 5
  /\ getNote 220 <> note_text "A" 3
  /\ getNote 261.63 <> note_text "C" 4.
Proof.
  destruct getNote_at_references as (H440 & H880 & H220 & HC & _).
  rewrite H440, H880, H220, HC. repeat split; discriminate.
Qed.

(** Where the rounded semitone number is not negative, the index is in
    [0 .. 11] and the pitch class is in [NOTES]. *)
Lemma noteIndex_in_range (f : R) :
  (0 <= JS.round (noteNum f))%Z ->
  (0 <= noteIndex f < 12)%Z /\ is_Some (JS.index NOTES (noteIndex f)).
Proof.
  intros H. unfold noteIndex, JS.rem.
  assert (Hr : (0 <= Z.rem (JS.round (noteNum f)) 12 < 12)%Z)
    by (apply Z.rem_bound_pos; lia).
  split; [exact Hr |]. unfold JS.index.
  destruct (Z.ltb_spec (Z.rem (JS.round (noteNum f)) 12) 0); [lia |].
  apply lookup_lt_is_Some_2. simpl. lia.
Qed.

(** C2: the code evaluated at 25 Hz, a positive finite frequency.  The
    rounded semitone number is -2, the remainder operator keeps the sign, the
    index -2 is outside [NOTES], and the note printed starts with
    "undefined": the pitch class is not one of the 12 symbols. *)
Theorem C2_getNote_below_reference :
  0 < 25
  /\ JS.round (noteNum 25) = (-2)%Z
  /\ noteIndex 25 = (-2)%Z
  /\ ~ (0 <= noteIndex 25 < 12)%Z
  /\ JS.index NOTES (noteIndex 25) = None
  /\ getNote 25 = "undefined-1"%string.
Proof.
  pose proof noteNum_25 as H.
  assert (Hr : JS.round (noteNum 25) = (-2)%Z) by (apply round_eq; lra).
  assert (Hi : noteIndex 25 = (-2)%Z) by (unfold noteIndex; rewrite Hr; reflexivity).
  split; [lra |]. split; [exact Hr |]. split; [exact Hi |].
  rewrite Hi. split; [lia |]. split; [reflexivity |].
  apply getNote_at_references.
Qed.

(** ** Instances of the theorems on concrete runs *)

Lemma spectra_of_calibration_frames (n : nat) (frequencyData : list R) :
  spectra_of (replicate n (CalibrationFrame 0 frequencyData))
  = replicate n frequencyData.
Proof. induction n as [| n IH]; [reflexivity |]. simpl. rewrite IH. reflexivity. Qed.

Lemma binwise_max_constant (n : nat) (x : R) :
  binwise_max [x] (replicate n [x]) = [x].
Proof.
  induction n as [| n IH]; [reflexivity |].
  unfold binwise_max in *. simpl. rewrite Rmax_left by apply Rle_refl. exact IH.
Qed.


Lemma C5_smooth_witness :
  smooth [1; 2; 6] 1 !! 1%nat
  = Some (mean_of_positions [1; 2; 6] (window_lo 1 1) (window_hi 3 1 1)).
Proof.
  apply (proj1 (proj2 (C5_smooth_is_windowed_mean [1; 2; 6] 1)) 1%nat).
  simpl. lia.
Defined.

Lemma C6_history_witness :
  radius_is_current
    (step 0 first_sample initialMachine (ClickListen true [100] []))
  /\ pitchData
       (ui (step 0 first_sample
              (mkMachine (set_smoothness 1 (set_pitchData [100] initialState))
                 (Some (mkEnv false 1)) [])
              (PitchFrame [200])))
     = publish_from_raw ([100] ++ [200]) 1.
Proof.
  destruct (C6_history_from_published_history 0 first_sample)
    as (Hinit & Hstep & Htick).
  split.
  - apply Hstep; [left; exact I | exact Hinit].
  - apply (Htick (mkMachine (set_smoothness 1 (set_pitchData [100] initialState))
                    (Some (mkEnv false 1)) [])
             (mkEnv false 1) [200] 200).
    + intros env H. injection H as <-. reflexivity.
    + reflexivity.
    + reflexivity.
Defined.

Lemma C7_history_witness :
  nextPitchData 0 440 (replicate 100 0) = drop 1 (replicate 100 0) ++ [440].
Proof.
  apply (proj2 (proj2 (C7_history_bounded_fifo 0 silent))).
  apply length_replicate.
Defined.



Lemma C8_stop_then_start_witness :
  noiseProfileRef
    (ui (startListening 1 silent true [] [7]
           (stopListening
              (mkMachine (set_cancelNoise true initialState) None []))))
  = Some [7].
Proof.
  apply (proj2 (proj2 (proj2 (proj2 (proj2
           (C8_stop_then_start 1 silent
              (mkMachine (set_cancelNoise true initialState) None [])
              true [] [7]))))));
    reflexivity.
Defined.

(** ** Where the code departs from the spec *)

Lemma smoothedData_means (xs : list R) (r : nat) :
  smoothedData xs r
  = map (fun i => mean_of_positions xs (window_lo i r) (window_hi (length xs) i r))
      (seq 0 (length xs)).
Proof.
  rewrite smoothedData_map. apply map_ext_in. intros i Hi.
  apply in_seq in Hi. apply average_at_mean. lia.
Qed.

(** Evaluation of the smoothing loop on a literal list. *)
Ltac eval_means :=
  rewrite ?smoothedData_means;
  cbv [length app seq map mean_of_positions window_lo window_hi Nat.min Nat.sub
       Nat.add Z.of_nat Z.max Z.sub Z.to_nat Z.compare Z.add Z.opp Z.pos_sub
       Pos.of_succ_nat Pos.succ Pos.compare Pos.compare_cont Pos.to_nat Pos.iter_op
       Z.succ_double Z.pred_double Z.double Pos.pred_double
       fold_right TypedArray.get lookup list_lookup default id INR].

Ltac eval_nextPitchData :=
  unfold nextPitchData, publish_from_raw, smooth; simpl decide; cbv iota;
  rewrite slice_from_last_100; eval_means; simpl drop;
  repeat (f_equal; try lra).

(** C6 as stated fails, in two ways.  With radius 1 (set before the session
    starts) and the estimates 100, 200, 300 all accepted, the component
    publishes [150; 200; 225]: the third tick smooths [150; 150; 300], the
    history published by the second tick plus the new pitch.  Smoothing the
    raw list [100; 200; 300] gives [150; 200; 250].  And when the slider is
    moved to 1 after the session has started, the component publishes
    [100; 200; 300]: nothing is smoothed with the current radius. *)
Lemma C6_raw_list_counterexample :
  let m := run 0 first_sample initialMachine
             [ChangeSmoothness 1; ClickListen true [100] [];
              PitchFrame [200]; PitchFrame [300]] in
  let m' := run 0 first_sample initialMachine
              [ClickListen true [100] []; ChangeSmoothness 1;
               PitchFrame [200]; PitchFrame [300]] in
  (pitchData (ui m) = [150; 200; 225]
   /\ publish_from_raw [100; 200; 300] 1 = [150; 200; 250]
   /\ pitchData (ui m) <> publish_from_raw [100; 200; 300] 1)
  /\ (smoothness (ui m') = 1%nat
      /\ pitchData (ui m') = [100; 200; 300]
      /\ pitchData (ui m') <> publish_from_raw [100; 200; 300] (smoothness (ui m'))).
Proof.
  assert (H1 : nextPitchData 1 100 [] = [100]) by eval_nextPitchData.
  assert (H2 : nextPitchData 1 200 [100] = [150; 150]) by eval_nextPitchData.
  assert (H3 : nextPitchData 1 300 [150; 150] = [150; 200; 225])
    by eval_nextPitchData.
  assert (Hraw : publish_from_raw [100; 200; 300] 1 = [150; 200; 250])
    by eval_nextPitchData.
  assert (Hm : pitchData
                 (ui (run 0 first_sample initialMachine
                        [ChangeSmoothness 1; ClickListen true [100] [];
                         PitchFrame [200]; PitchFrame [300]]))
               = [150; 200; 225]).
  { unfold run. cbn [fold_left step].
    cbn -[Rplus Rdiv IZR INR Rmult Rinv nextPitchData].
    rewrite H1, H2, H3. reflexivity. }
  assert (Hm' : pitchData
                  (ui (run 0 first_sample initialMachine
                         [ClickListen true [100] []; ChangeSmoothness 1;
                          PitchFrame [200]; PitchFrame [300]]))
                = [100; 200; 300]) by reflexivity.
  assert (Hs' : smoothness
                  (ui (run 0 first_sample initialMachine
                         [ClickListen true [100] []; ChangeSmoothness 1;
                          PitchFrame [200]; PitchFrame [300]]))
                = 1%nat) by reflexivity.
  cbv zeta. rewrite Hm, Hm', Hs', Hraw. split.
  - split; [reflexivity |]. split; [reflexivity |].
    intros H. injection H as H. lra.
  - split; [reflexivity |]. split; [reflexivity |].
    intros H. injection H as H. lra.
Qed.

Lemma calibrated_session_state :
  calLoops calibrated_session = []
  /\ noiseProfileRef (ui calibrated_session) = Some [1]
  /\ noiseFloorRef (ui calibrated_session) = Finite 1
  /\ isCalibrating (ui calibrated_session) = false
  /\ calibrationTime (ui calibrated_session) = 5%nat
  /\ cancelNoise (ui calibrated_session) = false.
Proof.
  unfold calibrated_session. rewrite run_app.
  set (m := run 1 silent initialMachine [ClickListen true [] []; ClickCalibrate [1]]).
  assert (Hl : calLoops m = [mkCalLoop 1 300]) by reflexivity.
  assert (Hp : noiseProfileRef (ui m) = Some [1]) by reflexivity.
  assert (Hall : Forall (animation_frame 1) (replicate 299 (CalibrationFrame 0 [1]))).
  { apply Forall_replicate. split; reflexivity. }
  destruct (calibration_completes 1 silent _ m 1 300 [1] Hl ltac:(lia) Hp
              eq_refl Hall ltac:(lia)) as (H1 & H2 & H3 & H4).
  { rewrite spectra_of_calibration_frames, length_replicate. reflexivity. }
  rewrite spectra_of_calibration_frames, binwise_max_constant in H2, H3.
  split; [exact H1 |]. split; [exact H2 |]. split; [exact H3 |].
  split; [exact H4 |]. split; reflexivity.
Qed.

(** C8 as stated fails.  After the calibrated session is stopped and started
    again, the noise profile [[1]] and the noise floor 1 of the prior session
    are still in the refs. *)
Lemma C8_residual_calibration_counterexample :
  let m1 := startListening 1 silent true [] [1] (stopListening calibrated_session) in
  noiseProfileRef (ui m1) = Some [1]
  /\ noiseFloorRef (ui m1) = Finite 1
  /\ ~ (noiseProfileRef (ui m1) = None /\ noiseFloorRef (ui m1) = Finite 0).
Proof.
  destruct calibrated_session_state as (Hl & Hp & Hf & Hc & HT & Hcn).
  generalize dependent calibrated_session. intros m Hl Hp Hf Hc HT Hcn.
  assert (Hfloor : noiseFloorRef
                     (ui (startListening 1 silent true [] [1] (stopListening m)))
                   = Finite 1).
  { rewrite restart_keeps_floor; [exact Hf | rewrite HT; lia]. }
  assert (Hprofile : noiseProfileRef
                       (ui (startListening 1 silent true [] [1] (stopListening m)))
                     = Some [1]).
  { rewrite restart_keeps_profile; [exact Hp | exact Hcn]. }
  cbv zeta. rewrite Hprofile, Hfloor.
  split; [reflexivity |]. split; [reflexivity |].
  intros [H _]. discriminate H.
Qed.

(** ** The checkbox and the running pitch loop *)

Lemma toggled_session_state :
  cancelNoise (ui toggled_session) = true
  /\ noiseProfileRef (ui toggled_session) = Some [9]
  /\ noiseFloorRef (ui toggled_session) = Finite 9
  /\ pitchLoop toggled_session = Some (mkEnv false 0)
  /\ pitchData (ui toggled_session) = [5].
Proof.
  assert (Hc : cancelNoise (ui toggled_session) = true) by reflexivity.
  assert (Hloop : pitchLoop toggled_session = Some (mkEnv false 0)) by reflexivity.
  assert (Hd : pitchData (ui toggled_session) = [5]) by reflexivity.
  split; [exact Hc |]. clear Hc. revert Hloop Hd.
  unfold toggled_session. rewrite run_app.
  set (m := run 1 first_sample initialMachine
              [ClickListen true [5] []; ChangeCancelNoise true [9]]).
  assert (Hl : calLoops m = [mkCalLoop 1 300]) by reflexivity.
  assert (Hp : noiseProfileRef (ui m) = Some [9]) by reflexivity.
  assert (Hall : Forall (animation_frame 1) (replicate 299 (CalibrationFrame 0 [9]))).
  { apply Forall_replicate. split; reflexivity. }
  destruct (calibration_completes 1 first_sample _ m 1 300 [9] Hl ltac:(lia) Hp
              eq_refl Hall ltac:(lia)) as (_ & H2 & H3 & _).
  { rewrite spectra_of_calibration_frames, length_replicate. reflexivity. }
  rewrite spectra_of_calibration_frames, binwise_max_constant in H2, H3.
  intros Hloop Hd.
  split; [exact H2 |]. split; [exact H3 |]. split; assumption.
Qed.

(** C3: the code evaluated on a session in which the box is checked while
    listening.  Noise cancellation is enabled and the calibration it started
    has left the noise floor 9; the next pitch frame yields the estimate 4,
    which is not above the floor.  The claim has the estimate discarded; the
    code appends it to the history and shows its note: the guard of the
    running loop tests the [cancelNoise] of the render that created the loop,
    which is still the unchecked box. *)
Theorem C3_gate_ignores_checkbox :
  let m := toggled_session in
  let m' := step 1 first_sample m (PitchFrame [4]) in
  cancelNoise (ui m) = true /\ noiseFloorRef (ui m) = Finite 9
  /\ pitchData (ui m) = [5]
  /\ first_sample [4] = PitchNum 4
  /\ ~ accept (cancelNoise (ui m)) (noiseFloorRef (ui m)) 4
  /\ pitchData (ui m') = [5; 4]
  /\ currentNote (ui m') = getNote 4.
Proof.
  destruct toggled_session_state as (Hc & Hp & Hf & Hloop & Hd).
  generalize dependent toggled_session. intros m Hc Hp Hf Hloop Hd.
  cbv zeta. rewrite Hc, Hf, Hd.
  split; [reflexivity |]. split; [reflexivity |]. split; [reflexivity |].
  split; [reflexivity |].
  split; [unfold accept; intros [H | H]; [discriminate | lra] |].
  cbn [step]. rewrite Hloop. cbn [ui with_ui].
  unfold updatePitch, gate_apply. cbn [env_cancelNoise env_smoothness].
  rewrite Hp, Hd. split; reflexivity.
Qed.

(** C9: the code evaluated on the same session.  Noise cancellation is
    enabled and the profile is [[9]]: the claim has the frame [[12]] become
    [[max(0, 12 - 9)]], that is [[3]], before the estimator reads it.  In the
    code the estimator reads the frame as it came: the pitch it reports, its
    first sample, enters the history as 12.  The loop tests the [cancelNoise]
    of the render that created it, before the box was checked. *)
Theorem C9_gate_bypassed_after_checkbox :
  let m := toggled_session in
  let m' := step 1 first_sample m (PitchFrame [12]) in
  cancelNoise (ui m) = true /\ noiseProfileRef (ui m) = Some [9]
  /\ imap (subtract_and_clamp [9]) [12] = [3]
  /\ first_sample [3] = PitchNum 3
  /\ first_sample [12] = PitchNum 12
  /\ pitchData (ui m') = [5; 12]
  /\ currentNote (ui m') = getNote 12.
Proof.
  destruct toggled_session_state as (Hc & Hp & Hf & Hloop & Hd).
  generalize dependent toggled_session. intros m Hc Hp Hf Hloop Hd.
  cbv zeta. rewrite Hc, Hp.
  split; [reflexivity |]. split; [reflexivity |].
  split; [cbn; unfold subtract_and_clamp, TypedArray.get; cbn;
          rewrite Rmax_right by lra; f_equal; lra |].
  split; [reflexivity |]. split; [reflexivity |].
  cbn [step]. rewrite Hloop. cbn [ui with_ui].
  unfold updatePitch, gate_apply. cbn [env_cancelNoise env_smoothness].
  rewrite Hp, Hd. split; reflexivity.
Qed.

(** ** Calibrations that overlap *)




(** * Further properties of the code *)

(** ** More about [getNote] *)

Lemma log2_powerRZ (z : Z) : JS.log2 (powerRZ 2 z) = IZR z.
Proof.
  unfold JS.log2. rewrite powerRZ_Rpower by lra. rewrite ln_Rpower.
  pose proof ln2_pos. field. lra.
Qed.

Lemma log2_lt (x y : R) : 0 < x -> x < y -> JS.log2 x < JS.log2 y.
Proof.
  intros Hx Hxy. unfold JS.log2. pose proof ln2_pos.
  apply Rmult_lt_compat_r; [apply Rinv_0_lt_compat; lra |].
  apply ln_increasing; lra.
Qed.

Lemma log2_le (x y : R) : 0 < x -> x <= y -> JS.log2 x <= JS.log2 y.
Proof.
  intros Hx [Hxy | ->]; [left; apply log2_lt; assumption | right; reflexivity].
Qed.

Lemma log2_mult (x y : R) :
  0 < x -> 0 < y -> JS.log2 (x * y) = JS.log2 x + JS.log2 y.
Proof.
  intros Hx Hy. unfold JS.log2. rewrite ln_mult by assumption.
  pose proof ln2_pos. field. lra.
Qed.

(** [noteNum] counts semitones from 27.5 Hz: twelve times the base-2
    logarithm of [f / 27.5]. *)
Lemma noteNum_from_A0 (f : R) : 0 < f -> noteNum f = 12 * JS.log2 (f / 27.5).
Proof.
  intros Hf. unfold noteNum.
  assert (H16 : powerRZ 2 4 = 16) by (simpl; lra).
  replace (f / 27.5) with (f / 440 * powerRZ 2 4) by (rewrite H16; lra).
  rewrite log2_mult; [| lra | rewrite H16; lra].
  rewrite log2_powerRZ. lra.
Qed.

Lemma log2_ge_powerRZ (x : R) (z : Z) :
  0 < x -> (IZR z <= JS.log2 x <-> powerRZ 2 z <= x).
Proof.
  intros Hx. pose proof (powerRZ_lt 2 z ltac:(lra)) as Hp. split; intros H.
  - destruct (Rle_lt_dec (powerRZ 2 z) x) as [Hle | Hlt]; [exact Hle |].
    apply (log2_lt _ _ Hx) in Hlt. rewrite log2_powerRZ in Hlt. lra.
  - rewrite <- (log2_powerRZ z). apply log2_le; assumption.
Qed.

(** X1: from 27.5 Hz on, the octave number that [getNote] prints never
    decreases when the frequency increases, and from 27.5 * 2^o Hz on it is at
    least [o] (for [o >= 0]).  27.5 * 2^o Hz is the A of octave [o] (27.5, 55,
    110, 220, 440, ...): 440 Hz and every frequency above it print an octave
    of at least 4. *)
Theorem X1_octave_from_each_A (f g : R) (o : Z) :
  ((0 <= o)%Z -> 27.5 * powerRZ 2 o <= f -> (o <= octave f)%Z)
  /\ (27.5 <= f -> f <= g -> (octave f <= octave g)%Z).
Proof.
  split.
  - intros _ Hf. pose proof (powerRZ_lt 2 o ltac:(lra)) as Hp.
    unfold octave, JS.floor. apply Zfloor_lub.
    rewrite noteNum_from_A0 by lra.
    replace (12 * JS.log2 (f / 27.5) / 12) with (JS.log2 (f / 27.5)) by field.
    apply log2_ge_powerRZ; [apply Rdiv_lt_0_compat; lra | lra].
  - intros Hf Hfg. unfold octave, JS.floor. apply Zfloor_lub.
    pose proof (Zfloor_bound (noteNum f / 12)) as [Hb _].
    rewrite !noteNum_from_A0 in * by lra.
    assert (JS.log2 (f / 27.5) <= JS.log2 (g / 27.5))
      by (apply log2_le; [apply Rdiv_lt_0_compat |]; lra).
    lra.
Qed.

Lemma X1_octave_from_each_A_witness :
  (4 <= octave 500)%Z /\ (octave 440 <= octave 500)%Z.
Proof.
  split.
  - apply (proj1 (X1_octave_from_each_A 500 500 4)); [lia | simpl; lra].
  - apply (proj2 (X1_octave_from_each_A 440 500 0)); lra.
Defined.

Lemma round_bound (x : R) : IZR (JS.round x) - / 2 <= x < IZR (JS.round x) + / 2.
Proof. unfold JS.round. pose proof (Zfloor_bound (x + / 2)). lra. Qed.

(** X3: from 27.5 Hz on, [getNote] prints one of the twelve symbols of
    [NOTES] followed by an octave number that is not negative. *)
Theorem X3_getNote_in_alphabet (f : R) :
  27.5 <= f ->
  (0 <= octave f)%Z
  /\ (0 <= noteIndex f < 12)%Z
  /\ exists pitchClass : string,
       In pitchClass NOTES
       /\ getNote f = (pitchClass ++ JS.show_int (octave f))%string.
Proof.
  intros Hf.
  assert (Hn : 0 <= noteNum f).
  { rewrite noteNum_from_A0 by lra.
    assert (0 <= JS.log2 (f / 27.5)); [| lra].
    rewrite <- log2_1. apply log2_le; lra. }
  assert (Hr : (0 <= JS.round (noteNum f))%Z).
  { unfold JS.round. apply Zfloor_lub. lra. }
  destruct (noteIndex_in_range f Hr) as [Hi [pc Hpc]].
  split; [unfold octave, JS.floor; apply Zfloor_lub; lra |].
  split; [exact Hi |]. exists pc. split.
  - unfold JS.index in Hpc. destruct (noteIndex f <? 0)%Z; [discriminate |].
    apply list_elem_of_In. eapply list_elem_of_lookup_2. exact Hpc.
  - unfold getNote. destruct (Rlt_dec 0 f) as [_ | n]; [| lra].
    rewrite Hpc. reflexivity.
Qed.

Lemma X3_getNote_in_alphabet_witness : (0 <= octave 100)%Z.
Proof. apply (X3_getNote_in_alphabet 100). lra. Defined.

(** X4: the pitch class comes from the rounded semitone number [n], the
    octave from the unrounded one.  The printed octave is the octave of [n]
    ([n / 12], rounded down) except in the half semitone below a multiple of
    12, where it is one less: there the symbol is already that of the upper
    octave ("C") with the number of the lower one. *)
Theorem X4_octave_of_rounded_note (f : R) :
  0 < f ->
  let n := JS.round (noteNum f) in
  ((n mod 12 <> 0)%Z \/ IZR n <= noteNum f -> octave f = (n / 12)%Z)
  /\ ((n mod 12 = 0)%Z -> noteNum f < IZR n -> octave f = (n / 12 - 1)%Z).
Proof.
  intros Hf n. pose proof (round_bound (noteNum f)) as Hb. fold n in Hb.
  clearbody n.
  pose proof (Z.div_mod n 12 ltac:(lia)) as Hdiv.
  pose proof (Z.mod_pos_bound n 12 ltac:(lia)) as Hmod.
  assert (HR : IZR n = 12 * IZR (n / 12) + IZR (n mod 12)).
  { rewrite Hdiv at 1. rewrite plus_IZR, mult_IZR. reflexivity. }
  assert (H0 : 0 <= IZR (n mod 12)) by (apply IZR_le; lia).
  assert (H11 : IZR (n mod 12) <= 11) by (apply IZR_le; lia).
  assert (H1 : (n mod 12 <> 0)%Z -> 1 <= IZR (n mod 12))
    by (intros; apply IZR_le; lia).
  unfold octave, JS.floor.
  split; [intros [Hne | Hge] | intros Hz Hlt]; apply Zfloor_eq;
    rewrite ?minus_IZR; try specialize (H1 Hne); try rewrite Hz in *;
    generalize dependent (IZR (n mod 12)); generalize dependent (IZR (n / 12));
    generalize dependent (IZR n); intros; lra.
Qed.

Lemma X4_octave_of_rounded_note_witness :
  octave 440 = (JS.round (noteNum 440) / 12)%Z.
Proof.
  apply (proj1 (X4_octave_of_rounded_note 440 ltac:(lra))).
  right. rewrite noteNum_440. rewrite (round_eq 48 48) by lra. lra.
Defined.

(** ** The gate's subtraction never leaves a negative sample *)

(** X5: with noise cancellation on and a (non-empty) profile, no sample that
    reaches the estimator is negative; a sample is not lowered where the
    profile bin is not positive, and not raised above [max(0, sample)] where
    the bin is not negative. *)
Theorem X5_gate_apply_clamps (profile input : list R) (i : nat) (out : R) :
  profile <> [] ->
  gate_apply true (Some profile) input !! i = Some out ->
  0 <= out
  /\ exists sample : R,
       input !! i = Some sample
       /\ (TypedArray.get profile (i mod length profile) <= 0 -> sample <= out)
       /\ (0 <= TypedArray.get profile (i mod length profile) ->
             out <= Rmax 0 sample).
Proof.
  intros _ H. unfold gate_apply in H. rewrite attenuate_lookup in H.
  destruct (input !! i) as [sample |]; [| discriminate].
  injection H as <-. unfold subtract_and_clamp. split; [apply Rmax_l |].
  exists sample. split; [reflexivity |]. split; intros Hb.
  - eapply Rle_trans; [| apply Rmax_r]. lra.
  - apply Rmax_lub; [apply Rmax_l |].
    eapply Rle_trans; [| apply Rmax_r]. lra.
Qed.

Lemma X5_gate_apply_clamps_witness : 0 <= Rmax 0 (-3 - 1).
Proof.
  apply (X5_gate_apply_clamps [1] [-3] 0 (Rmax 0 (-3 - 1))).
  - discriminate.
  - unfold gate_apply. rewrite attenuate_lookup. reflexivity.
Defined.

(** ** Calibration rounds on spectra of any length *)

Lemma max_into_lookup (profile frequencyData : list R) (j : nat) :
  max_into profile frequencyData !! j
  = if decide (j < length frequencyData)%nat
    then (fun x => Rmax x (TypedArray.get frequencyData j)) <$> profile !! j
    else profile !! j.
Proof.
  unfold max_into.
  apply (for_loop_cells (fun i x => Rmax x (TypedArray.get frequencyData i))).
Qed.

Lemma max_into_length (profile frequencyData : list R) :
  length (max_into profile frequencyData) = length profile.
Proof.
  unfold max_into.
  apply (for_loop_cells_length
           (fun i x => Rmax x (TypedArray.get frequencyData i))).
Qed.

Lemma absorb_length (k : nat) (profile frequencyData profile' : list R) :
  absorb k profile frequencyData = Some profile' ->
  length profile' = length profile.
Proof.
  unfold absorb, TypedArray.set. destruct (decide (k = 0)%nat).
  - destruct (decide _); [| discriminate]. intros H. injection H as <-.
    rewrite length_app, length_drop. lia.
  - intros H. injection H as <-. apply max_into_length.
Qed.

(** X6: a calibration round and the length of the spectrum.  The first round
    throws, before it writes anything, exactly when the spectrum is longer
    than the profile (or there is no profile); otherwise it overwrites the
    first cells and keeps the rest.  A later round never throws on a profile:
    it raises the cells that both arrays have and ignores the others.  No
    round changes the length of the profile. *)
Theorem X6_calibration_round_lengths (l : CalLoop) (frequencyData : list R)
  (s : State) (profile : list R) :
  noiseProfileRef s = Some profile ->
  let s' := fst (updateCalibration l frequencyData s) in
  (calibrationFrames l = 0%nat ->
     if decide (length frequencyData <= length profile)%nat
     then noiseProfileRef s'
          = Some (frequencyData ++ drop (length frequencyData) profile)
     else updateCalibration l frequencyData s = (s, Threw))
  /\ ((1 <= calibrationFrames l)%nat ->
        snd (updateCalibration l frequencyData s) <> Threw
        /\ exists profile' : list R,
             noiseProfileRef s' = Some profile'
             /\ forall (j : nat) (x : R),
                  profile !! j = Some x ->
                  profile' !! j
                  = Some (match frequencyData !! j with
                          | Some y => Rmax x y
                          | None => x
                          end))
  /\ (forall profile' : list R,
        noiseProfileRef s' = Some profile' -> length profile' = length profile).
Proof.
  intros Hp s'. subst s'. unfold updateCalibration. rewrite Hp.
  split; [| split].
  - intros H0. unfold absorb, TypedArray.set. rewrite H0. simpl.
    destruct (decide (length frequencyData <= length profile)%nat);
      [| reflexivity].
    destruct (decide _); reflexivity.
  - intros Hk. unfold absorb. destruct (decide (calibrationFrames l = 0)%nat); [lia |].
    assert (Hcells : forall (j : nat) (x : R),
              profile !! j = Some x ->
              max_into profile frequencyData !! j
              = Some (match frequencyData !! j with
                      | Some y => Rmax x y
                      | None => x
                      end)).
    { intros j x Hx. rewrite max_into_lookup, Hx. unfold TypedArray.get.
      destruct (decide (j < length frequencyData)%nat) as [Hj | Hj].
      - destruct (lookup_lt_is_Some_2 frequencyData j Hj) as [y Hy].
        rewrite Hy. reflexivity.
      - rewrite (lookup_ge_None_2 frequencyData j) by lia. reflexivity. }
    destruct (decide _); cbn; (split; [discriminate |]);
      exists (max_into profile frequencyData); (split; [reflexivity | exact Hcells]).
  - intros profile'.
    destruct (absorb _ _ _) as [p1 |] eqn:Ha.
    + apply absorb_length in Ha.
      destruct (decide _); cbn; intros H; injection H as <-; exact Ha.
    + cbn. rewrite Hp. intros H. injection H as <-. reflexivity.
Qed.

Lemma X6_calibration_round_lengths_witness :
  updateCalibration (mkCalLoop 0 300) [1; 2; 3]
    (set_noiseProfileRef (Some [0; 0]) initialState)
  = (set_noiseProfileRef (Some [0; 0]) initialState, Threw).
Proof.
  apply (proj1 (X6_calibration_round_lengths (mkCalLoop 0 300) [1; 2; 3]
                  (set_noiseProfileRef (Some [0; 0]) initialState) [0; 0]
                  eq_refl) eq_refl).
Defined.



(** ** What holds in every reachable state *)

Section Reachable.

Variable frequencyBinCount : nat.
Variable findPitch : list R -> pitch_result.

Local Abbreviation tick := (updatePitch findPitch).
Local Abbreviation step' := (step frequencyBinCount findPitch).
Local Abbreviation run' := (run frequencyBinCount findPitch).

(** A property kept by every step on the events of a class holds after any
    run on such events. *)
Lemma run_invariant (P : Machine -> Prop) (Q : event -> Prop) :
  (forall m e, Q e -> P m -> P (step' m e)) ->
  forall es m, Forall Q es -> P m -> P (run' m es).
Proof.
  intros Hstep es. induction es as [| e es IH]; intros m Hall Hm; [exact Hm |].
  apply Forall_cons in Hall as [He Hes]. rewrite run_cons.
  apply IH; [exact Hes | apply Hstep; assumption].
Qed.

Lemma well_shaped_ui (s : State) (m : Machine) :
  calibrationTime s = calibrationTime (ui m) ->
  isListening s = isListening (ui m) ->
  noiseProfileRef s = noiseProfileRef (ui m) ->
  well_shaped frequencyBinCount m ->
  well_shaped frequencyBinCount (with_ui s m).
Proof.
  intros Ht Hl Hp (H1 & H2 & H3 & H4 & H5). unfold well_shaped, with_ui. cbn.
  rewrite Ht, Hl, Hp. repeat split; try assumption; apply H2.
Qed.

Lemma well_shaped_run_calibrateNoise (frequencyData : list R) (m : Machine) :
  well_shaped frequencyBinCount m ->
  well_shaped frequencyBinCount
    (run_calibrateNoise frequencyBinCount frequencyData m).
Proof.
  intros (H1 & H2 & H3 & H4 & H5).
  unfold well_shaped, run_calibrateNoise, calibrateNoise, updateCalibration.
  cbn [noiseProfileRef set_noiseProfileRef calibrationFrames maxCalibrationFrames].
  rewrite H1.
  destruct (absorb 0 _ frequencyData) as [profile' |] eqn:Ha.
  - apply absorb_length in Ha. unfold TypedArray.make in Ha.
    rewrite length_replicate in Ha.
    destruct (decide (1 < 5 * 60)%nat) as [_ | Hn]; [| simpl in Hn; lia].
    cbn. repeat split; try assumption; try apply H2.
    + apply Forall_app. split; [exact H3 |].
      constructor; [| constructor]. unfold loop_in_range. cbn. lia.
    + intros p Hp. injection Hp as <-. exact Ha.
    + intros _. eexists. reflexivity.
  - cbn. rewrite app_nil_r. repeat split; try assumption; try apply H2.
    + intros p Hp. injection Hp as <-. unfold TypedArray.make.
      apply length_replicate.
    + intros _. eexists. reflexivity.
Qed.

Lemma well_shaped_listen (env : Env) (input : list R) (m : Machine) :
  well_shaped frequencyBinCount m ->
  well_shaped frequencyBinCount (listen findPitch env input m).
Proof.
  intros (H1 & H2 & H3 & H4 & H5). unfold well_shaped, listen. cbn.
  pose proof (updatePitch_refs findPitch env input (ui m))
    as (_ & -> & _ & _ & _ & -> & _).
  repeat split; try assumption. eexists. reflexivity.
Qed.

Lemma well_shaped_calibrationFrame (k : nat) (frequencyData : list R)
  (m : Machine) :
  well_shaped frequencyBinCount m ->
  well_shaped frequencyBinCount (calibrationFrame k frequencyData m).
Proof.
  intros Hm. pose proof Hm as (H1 & H2 & H3 & H4 & H5).
  unfold calibrationFrame. destruct (calLoops m !! k) as [l |] eqn:Hk; [| exact Hm].
  assert (Hl : loop_in_range l).
  { rewrite Forall_forall in H3. apply H3. eapply list_elem_of_lookup_2, Hk. }
  destruct Hl as [[Hk1 Hk2] HM].
  destruct H5 as [p Hp]; [intros E; rewrite E in Hk; discriminate |].
  pose proof (H4 p Hp) as Hlen.
  assert (Hsub : Forall loop_in_range (take k (calLoops m))
                 /\ Forall loop_in_range (drop (S k) (calLoops m))).
  { split; [apply Forall_take | apply Forall_drop]; exact H3. }
  destruct Hsub as [Htake Hdrop].
  unfold updateCalibration. rewrite Hp. unfold absorb.
  destruct (decide (calibrationFrames l = 0)%nat); [lia |].
  destruct (decide (S (calibrationFrames l) < maxCalibrationFrames l)%nat);
    unfold well_shaped; cbn; repeat split; try assumption; try apply H2.
  - apply Forall_app. split; [exact Htake |].
    constructor; [| exact Hdrop]. unfold loop_in_range. cbn. lia.
  - intros q Hq. injection Hq as <-. rewrite max_into_length. exact Hlen.
  - intros _. eexists. reflexivity.
  - apply Forall_app. split; assumption.
  - intros q Hq. injection Hq as <-. rewrite max_into_length. exact Hlen.
  - intros _. eexists. reflexivity.
Qed.

Lemma well_shaped_step (m : Machine) (e : event) :
  well_shaped frequencyBinCount m -> well_shaped frequencyBinCount (step' m e).
Proof.
  intros Hm. destruct e; cbn [step].
  - destruct (isCalibrating (ui m)); [exact Hm |].
    destruct (isListening (ui m)) eqn:Hl.
    + destruct Hm as (H1 & H2 & H3 & H4 & H5).
      unfold well_shaped, stopListening. cbn. repeat split; try assumption.
      * discriminate.
      * intros [? H]. discriminate H.
    + destruct (startListening_cases frequencyBinCount findPitch granted input
                  frequencyData m) as [-> | [[_ ->] | [[_ ->] | (_ & _ & ->)]]].
      * exact Hm.
      * apply well_shaped_listen, Hm.
      * apply well_shaped_run_calibrateNoise, Hm.
      * apply well_shaped_listen, well_shaped_run_calibrateNoise, Hm.
  - unfold handleCancelNoiseChange.
    assert (Hm1 : well_shaped frequencyBinCount
                    (with_ui (set_cancelNoise checked (ui m)) m))
      by (apply well_shaped_ui; [reflexivity .. | exact Hm]).
    destruct (checked && isListening (ui m)); [| exact Hm1].
    apply well_shaped_run_calibrateNoise, Hm1.
  - destruct (negb (isListening (ui m)) || isCalibrating (ui m)); [exact Hm |].
    unfold handleCalibrate. destruct (isListening (ui m)); [| exact Hm].
    apply well_shaped_run_calibrateNoise, Hm.
  - apply well_shaped_ui; [reflexivity .. | exact Hm].
  - destruct (pitchLoop m) as [env |]; [| exact Hm].
    pose proof (updatePitch_refs findPitch env input (ui m))
      as (_ & Hp & _ & Hl & _ & Ht & _).
    apply well_shaped_ui; assumption.
  - apply well_shaped_calibrationFrame, Hm.
Qed.

Lemma well_shaped_initial : well_shaped frequencyBinCount initialMachine.
Proof.
  unfold well_shaped. cbn. repeat split; try discriminate.
  - intros [? H]. discriminate H.
  - constructor.
  - intros H. contradiction.
Qed.

Lemma well_shaped_run (es : list event) :
  well_shaped frequencyBinCount (run' initialMachine es).
Proof.
  apply (run_invariant (well_shaped frequencyBinCount) (fun _ => True)).
  - intros m e _. apply well_shaped_step.
  - apply Forall_true. intros _. exact I.
  - apply well_shaped_initial.
Qed.

(** X7: whatever happens to the component, the noise profile, once there is
    one, has [frequencyBinCount] bins, and every pending calibration loop has
    consumed at least 1 and fewer than 300 frames of its 300; a calibration
    loop is pending only when there is a profile for it to write. *)
Theorem X7_calibration_invariants (es : list event) :
  let m := run' initialMachine es in
  (forall profile : list R,
     noiseProfileRef (ui m) = Some profile -> length profile = frequencyBinCount)
  /\ (forall l : CalLoop,
        In l (calLoops m) ->
        (1 <= calibrationFrames l < 300)%nat /\ maxCalibrationFrames l = 300%nat)
  /\ (calLoops m <> [] -> noiseProfileRef (ui m) <> None).
Proof.
  destruct (well_shaped_run es) as (H1 & H2 & H3 & H4 & H5).
  split; [exact H4 |]. split.
  - intros l Hl. rewrite Forall_forall in H3.
    destruct (H3 l) as [Hk HM]; [apply list_elem_of_In, Hl |].
    rewrite HM in Hk. split; assumption.
  - intros Hne. destruct (H5 Hne) as [p ->]. discriminate.
Qed.

(** X9: as long as every request for the microphone is rejected, the
    component stays idle whatever else is clicked or scheduled: it does not
    listen, no loop is pending, the history and the note are empty, and no
    calibration state is written. *)
Theorem X9_idle_until_granted (es : list event) :
  Forall mic_denied es ->
  let m := run' initialMachine es in
  isListening (ui m) = false /\ isCalibrating (ui m) = false
  /\ pitchData (ui m) = [] /\ currentNote (ui m) = ""%string
  /\ noiseProfileRef (ui m) = None /\ noiseFloorRef (ui m) = Finite 0
  /\ pitchLoop m = None /\ calLoops m = [].
Proof.
  intros Hall.
  apply (run_invariant
           (fun m => isListening (ui m) = false /\ isCalibrating (ui m) = false
                     /\ pitchData (ui m) = [] /\ currentNote (ui m) = ""%string
                     /\ noiseProfileRef (ui m) = None
                     /\ noiseFloorRef (ui m) = Finite 0
                     /\ pitchLoop m = None /\ calLoops m = [])
           mic_denied); [| exact Hall | repeat split].
  intros m e He (Hl & Hc & Hd & Hn & Hp & Hf & Hloop & Hcal).
  destruct e; cbn [step]; simpl in He.
  - rewrite Hc, Hl. subst granted. cbn. repeat split; assumption.
  - unfold handleCancelNoiseChange. rewrite Hl, andb_false_r. cbn.
    repeat split; assumption.
  - rewrite Hl. cbn. repeat split; assumption.
  - cbn. repeat split; assumption.
  - rewrite Hloop. repeat split; assumption.
  - unfold calibrationFrame. rewrite Hcal. cbn. repeat split; assumption.
Qed.

Lemma step_pitchLoop (m : Machine) (e : event) :
  not_listen_click e -> pitchLoop (step' m e) = pitchLoop m.
Proof.
  intros He. destruct e; cbn [step]; simpl in He; try contradiction.
  - unfold handleCancelNoiseChange.
    destruct (checked && isListening (ui m)); [| reflexivity].
    apply (run_calibrateNoise_keeps frequencyBinCount frequencyData
             (with_ui (set_cancelNoise checked (ui m)) m)).
  - destruct (negb (isListening (ui m)) || isCalibrating (ui m)); [reflexivity |].
    unfold handleCalibrate. destruct (isListening (ui m)); [| reflexivity].
    apply (run_calibrateNoise_keeps frequencyBinCount frequencyData m).
  - reflexivity.
  - destruct (pitchLoop m) eqn:E; [cbn; exact E | exact E].
  - unfold calibrationFrame. destruct (calLoops m !! k); [| reflexivity].
    destruct (updateCalibration _ _ _). reflexivity.
Qed.

(** X10: between the click that starts listening and the next click on that
    button, the pitch loop keeps the closure it was created with, whatever
    the checkbox, the slider, the Calibrate button and the calibration frames
    do.  A loop created with noise cancellation off therefore accepts every
    numeric estimate, also after the checkbox was checked and a calibration
    has run. *)
Theorem X10_pitch_loop_closure_is_fixed (m : Machine) (env : Env)
  (es : list event) :
  pitchLoop m = Some env -> Forall not_listen_click es ->
  pitchLoop (run' m es) = Some env
  /\ (env_cancelNoise env = false ->
      forall (input : list R) (pitch : R),
        findPitch input = PitchNum pitch ->
        let m' := step' (run' m es) (PitchFrame input) in
        currentNote (ui m') = getNote pitch
        /\ pitchData (ui m')
           = nextPitchData (env_smoothness env) pitch (pitchData (ui (run' m es)))).
Proof.
  intros Hloop Hall.
  assert (Hrun : pitchLoop (run' m es) = Some env).
  { apply (run_invariant (fun m => pitchLoop m = Some env) not_listen_click);
      [| exact Hall | exact Hloop].
    intros m0 e He H0. rewrite step_pitchLoop; assumption. }
  split; [exact Hrun |]. intros Hc input pitch Hfind. cbn [step].
  rewrite Hrun. cbn. unfold updatePitch, gate_apply. rewrite Hc.
  assert (Hin : match noiseProfileRef (ui (run' m es)) with
                | Some _ => input
                | None => input
                end = input) by (destruct (noiseProfileRef _); reflexivity).
  rewrite Hin, Hfind. cbn. split; reflexivity.
Qed.

Lemma run_calibrateNoise_pending (frequencyData : list R) (m : Machine) :
  calibrationTime (ui m) = 5%nat ->
  (length frequencyData <= frequencyBinCount)%nat ->
  calLoops (run_calibrateNoise frequencyBinCount frequencyData m) <> [].
Proof.
  intros Ht Hlen.
  unfold run_calibrateNoise, calibrateNoise, updateCalibration.
  cbn [noiseProfileRef set_noiseProfileRef calibrationFrames maxCalibrationFrames].
  rewrite Ht. unfold absorb, TypedArray.set, TypedArray.make. simpl decide at 1.
  cbv iota. rewrite length_replicate.
  destruct (decide (length frequencyData <= frequencyBinCount)%nat); [| lia].
  destruct (decide (1 < 5 * 60)%nat) as [_ | Hn]; [| simpl in Hn; lia].
  cbn. intros H. apply app_eq_nil in H as [_ H]. discriminate H.
Qed.

(** X11: when the spectra handed to the first calibration rounds have at most
    [frequencyBinCount] bins (the analyser's always have exactly that many),
    [isCalibrating] is set only while a calibration loop is pending: the
    "Calibrating..." label and the disabled buttons always have a loop left
    that will clear them. *)
Theorem X11_calibrating_has_a_loop (es : list event) :
  Forall (spectrum_fits frequencyBinCount) es ->
  let m := run' initialMachine es in
  isCalibrating (ui m) = true -> calLoops m <> [].
Proof.
  intros Hall.
  assert (Hinv : well_shaped frequencyBinCount (run' initialMachine es)
                 /\ (isCalibrating (ui (run' initialMachine es)) = true ->
                     calLoops (run' initialMachine es) <> [])).
  { apply (run_invariant
             (fun m => well_shaped frequencyBinCount m
                       /\ (isCalibrating (ui m) = true -> calLoops m <> []))
             (spectrum_fits frequencyBinCount));
      [| exact Hall | split; [apply well_shaped_initial | discriminate]].
    clear es Hall. intros m e He [Hm Hc].
    split; [apply well_shaped_step, Hm |].
    pose proof Hm as (Ht & _ & Hloops & Hlen & Hprof).
    destruct e; cbn [step]; simpl in He.
    - destruct (isCalibrating (ui m)) eqn:Hcal;
        [intros _; apply Hc; reflexivity |].
      destruct (isListening (ui m)); [cbn; rewrite Hcal; discriminate |].
      destruct (startListening_cases frequencyBinCount findPitch granted input
                  frequencyData m) as [-> | [[_ ->] | [[_ ->] | (_ & _ & ->)]]].
      + rewrite Hcal. discriminate.
      + unfold listen. cbn.
        pose proof (updatePitch_refs findPitch
                      (mkEnv (cancelNoise (ui m)) (smoothness (ui m))) input (ui m))
          as (_ & _ & -> & _).
        rewrite Hcal. discriminate.
      + intros _. apply run_calibrateNoise_pending; assumption.
      + intros _. unfold listen. cbn.
        apply run_calibrateNoise_pending; assumption.
    - unfold handleCancelNoiseChange.
      destruct (checked && isListening (ui m)); [| exact Hc].
      intros _. apply run_calibrateNoise_pending; assumption.
    - destruct (negb (isListening (ui m)) || isCalibrating (ui m)); [exact Hc |].
      unfold handleCalibrate. destruct (isListening (ui m)); [| exact Hc].
      intros _. apply run_calibrateNoise_pending; assumption.
    - exact Hc.
    - destruct (pitchLoop m) as [env |]; [| exact Hc]. cbn.
      pose proof (updatePitch_refs findPitch env input (ui m)) as (_ & _ & -> & _).
      exact Hc.
    - unfold calibrationFrame.
      destruct (calLoops m !! k) as [l |] eqn:Hk; [| exact Hc].
      assert (Hl : loop_in_range l).
      { rewrite Forall_forall in Hloops. apply Hloops.
        eapply list_elem_of_lookup_2, Hk. }
      destruct Hl as [[Hk1 _] _].
      destruct Hprof as [p Hp]; [intros E; rewrite E in Hk; discriminate |].
      unfold updateCalibration. rewrite Hp. unfold absorb.
      destruct (decide (calibrationFrames l = 0)%nat); [lia |].
      destruct (decide (S (calibrationFrames l) < maxCalibrationFrames l)%nat); cbn.
      + intros _ H. apply app_eq_nil in H as [_ H]. discriminate H.
      + discriminate. }
  exact (proj2 Hinv).
Qed.

End Reachable.

(** ** Smoothing and the sign of the history *)

Lemma sum_not_negative (g : nat -> R) (l : list nat) :
  (forall j, In j l -> 0 <= g j) -> 0 <= fold_right Rplus 0 (map g l).
Proof.
  induction l as [| j l IH]; intros H.
  - simpl. lra.
  - cbn [map fold_right]. pose proof (H j (or_introl eq_refl)).
    assert (0 <= fold_right Rplus 0 (map g l))
      by (apply IH; intros k Hk; apply H; right; exact Hk).
    lra.
Qed.

Lemma mean_not_negative (xs : list R) (a b : nat) :
  Forall (fun x => 0 <= x) xs -> (a < b)%nat -> (b <= length xs)%nat ->
  0 <= mean_of_positions xs a b.
Proof.
  intros Hall Hab Hb. unfold mean_of_positions.
  assert (Hn : 0 < INR (b - a)) by (apply lt_0_INR; lia).
  apply Rmult_le_pos; [| left; apply Rinv_0_lt_compat, Hn].
  apply sum_not_negative. intros j Hj. apply in_seq in Hj. unfold TypedArray.get.
  destruct (lookup_lt_is_Some_2 xs j) as [x Hx]; [lia |]. rewrite Hx. simpl.
  rewrite Forall_forall in Hall. apply Hall.
  eapply list_elem_of_lookup_2, Hx.
Qed.

Lemma smooth_not_negative (xs : list R) (r : nat) :
  Forall (fun x => 0 <= x) xs -> Forall (fun y => 0 <= y) (smooth xs r).
Proof.
  intros Hall. apply Forall_lookup. intros i y Hy.
  pose proof (lookup_lt_Some _ _ _ Hy) as Hi. rewrite smooth_length in Hi.
  rewrite smooth_lookup in Hy by exact Hi. injection Hy as <-.
  apply mean_not_negative; [exact Hall | |]; unfold window_lo, window_hi; lia.
Qed.

Lemma nextPitchData_not_negative (r : nat) (pitch : R) (prevData : list R) :
  Forall (fun x => 0 <= x) prevData -> 0 <= pitch ->
  Forall (fun y => 0 <= y) (nextPitchData r pitch prevData).
Proof.
  intros Hprev Hp. rewrite nextPitchData_drop. apply Forall_drop.
  apply smooth_not_negative. apply Forall_app. split; [exact Hprev |].
  constructor; [exact Hp | constructor].
Qed.

Section HistorySign.

Variable frequencyBinCount : nat.
Variable findPitch : list R -> pitch_result.

Lemma accepted_is_estimate (c : bool) (F : xreal) (e : pitch_result) (pitch : R) :
  accepted c F e = Some pitch -> e = PitchNum pitch.
Proof.
  unfold accepted. destruct e as [| | p]; try discriminate.
  destruct (negb c || above_floor p F); [| discriminate].
  intros H. injection H as <-. reflexivity.
Qed.

Lemma tick_not_negative (env : Env) (input : list R) (s : State) :
  (forall (frame : list R) (pitch : R),
     findPitch frame = PitchNum pitch -> 0 <= pitch) ->
  Forall (fun x => 0 <= x) (pitchData s) ->
  Forall (fun x => 0 <= x) (pitchData (updatePitch findPitch env input s)).
Proof.
  intros Hest Hs. unfold updatePitch.
  destruct (accepted _ _ _) as [pitch |] eqn:Ha; [| exact Hs]. cbn.
  apply accepted_is_estimate in Ha.
  apply nextPitchData_not_negative; [exact Hs | eapply Hest, Ha].
Qed.

(** X13: if the estimator never reports a negative pitch, no entry of the
    history is negative, whatever happens to the component: the means of the
    smoothing, the truncation, the calibrations and the restarts never make a
    negative value out of estimates that are not. *)
Theorem X13_history_not_negative (es : list event) :
  (forall (frame : list R) (pitch : R),
     findPitch frame = PitchNum pitch -> 0 <= pitch) ->
  Forall (fun x => 0 <= x)
    (pitchData (ui (run frequencyBinCount findPitch initialMachine es))).
Proof.
  intros Hest.
  apply (run_invariant frequencyBinCount findPitch
           (fun m => Forall (fun x => 0 <= x) (pitchData (ui m)))
           (fun _ => True));
    [| apply Forall_true; intros _; exact I | constructor].
  clear es. intros m e _ Hm.
  pose proof (fun fd m0 => proj1 (proj2 (run_calibrateNoise_keeps
                frequencyBinCount fd m0))) as Hcal. cbv zeta in Hcal.
  destruct e; cbn [step].
  - destruct (isCalibrating (ui m)); [exact Hm |].
    destruct (isListening (ui m)); [constructor |].
    destruct (startListening_cases frequencyBinCount findPitch granted input
                frequencyData m) as [-> | [[_ ->] | [[_ ->] | (_ & _ & ->)]]].
    + exact Hm.
    + unfold listen. cbn. apply tick_not_negative; assumption.
    + rewrite Hcal. exact Hm.
    + unfold listen. cbn. apply tick_not_negative; [exact Hest |].
      rewrite Hcal. exact Hm.
  - unfold handleCancelNoiseChange.
    destruct (checked && isListening (ui m)); [| exact Hm].
    rewrite Hcal. exact Hm.
  - destruct (negb (isListening (ui m)) || isCalibrating (ui m)); [exact Hm |].
    unfold handleCalibrate. destruct (isListening (ui m)); [| exact Hm].
    rewrite Hcal. exact Hm.
  - exact Hm.
  - destruct (pitchLoop m) as [env |]; [| exact Hm]. cbn.
    apply tick_not_negative; assumption.
  - unfold calibrationFrame. destruct (calLoops m !! k) as [l |]; [| exact Hm].
    pose proof (updateCalibration_keeps l frequencyData (ui m)) as (_ & Hd & _).
    destruct (updateCalibration l frequencyData (ui m)). cbn in *.
    rewrite Hd. exact Hm.
Qed.

End HistorySign.

(** X14: the newest entry of the history, the value displayed in Hz, is the
    mean of the new pitch and of the (at most) [r] newest entries of the
    history published before; with radius 0 it is the new pitch. *)
Theorem X14_newest_entry (r : nat) (pitch : R) (prevData : list R) :
  last (nextPitchData r pitch prevData)
  = Some ((fold_right Rplus 0 (drop (length prevData - r) prevData) + pitch)
          / INR (S (Nat.min r (length prevData)))).
Proof.
  set (n := length prevData).
  assert (Hlen : length (prevData ++ [pitch]) = S n)
    by (rewrite length_app; simpl; lia).
  rewrite nextPitchData_drop. fold n.
  rewrite last_lookup, length_drop, lookup_drop, smooth_length, Hlen.
  replace (S n - 100 + Init.Nat.pred (S n - (S n - 100)))%nat with n by lia.
  rewrite smooth_lookup by lia. f_equal.
  unfold mean_of_positions, window_lo, window_hi. rewrite Hlen.
  replace (Z.to_nat (Z.max 0 (Z.of_nat n - Z.of_nat r))) with (n - r)%nat by lia.
  replace (Nat.min (S n) (n + r + 1) - (n - r))%nat with (S (Nat.min r n)) by lia.
  f_equal.
  rewrite <- take_drop_cells by lia.
  rewrite take_ge by (rewrite length_drop; lia).
  rewrite drop_app_le by lia.
  clear. induction (drop (n - r) prevData) as [| x xs IH]; simpl; [lra |].
  rewrite IH. lra.
Qed.

(** X15: the history after [ps] were accepted one after the other, from an
    empty history, has [min(100, number of accepted pitches)] entries, for
    every radius. *)
Theorem X15_history_length (r : nat) (ps : list R) :
  length (history_after r ps) = Nat.min 100 (length ps).
Proof.
  induction ps as [| pitch ps IH] using rev_ind; [reflexivity |].
  rewrite history_after_snoc, nextPitchData_length, IH, length_app.
  cbn [length]. lia.
Qed.

(** ** The noise floor of a completed calibration *)

(** The largest value of the bin-wise maximum of some frames is the largest
    value of all their bins. *)
Lemma max_of_binwise_max (first : list R) (rest : list (list R)) :
  first <> [] -> Forall (fun f => length f = length first) rest ->
  exists F : R,
    TypedArray.max_of (binwise_max first rest) = Finite F
    /\ (forall (f : list R) (x : R), In f (first :: rest) -> In x f -> x <= F)
    /\ (exists f : list R, In f (first :: rest) /\ In F f).
Proof.
  intros Hne Hsp'.
  pose proof (binwise_max_length first rest Hsp') as Hplen.
  set (profile := binwise_max first rest) in *.
  destruct (max_of_is_max profile) as (F & -> & HF & Hub).
  { intros E. rewrite E in Hplen. destruct first; [contradiction | discriminate]. }
  exists F. split; [reflexivity |]. split.
  - intros f x Hf Hx.
    apply list_elem_of_In, list_elem_of_lookup in Hx as [i Hi].
    assert (Hflen : length f = length first).
    { destruct Hf as [<- | Hf]; [reflexivity |].
      rewrite Forall_forall in Hsp'. apply Hsp', list_elem_of_In, Hf. }
    pose proof (lookup_lt_Some _ _ _ Hi) as Hilt.
    destruct (binwise_max_is_max first rest i Hsp' ltac:(lia)) as [Hle _].
    specialize (Hle f Hf). unfold TypedArray.get in Hle at 1.
    rewrite Hi in Hle. simpl in Hle.
    eapply Rle_trans; [exact Hle |]. apply Hub. fold profile.
    unfold TypedArray.get.
    destruct (lookup_lt_is_Some_2 profile i) as [y Hy]; [lia |].
    rewrite Hy. simpl. apply list_elem_of_In. eapply list_elem_of_lookup_2, Hy.
  - apply list_elem_of_In, list_elem_of_lookup in HF as [i Hi].
    pose proof (lookup_lt_Some _ _ _ Hi) as Hilt.
    destruct (binwise_max_is_max first rest i Hsp' ltac:(lia))
      as [_ (f & Hf & Heqf)].
    exists f. split; [exact Hf |]. fold profile in Heqf.
    unfold TypedArray.get in Heqf at 1. rewrite Hi in Heqf. simpl in Heqf.
    assert (Hflen : length f = length first).
    { destruct Hf as [<- | Hf]; [reflexivity |].
      rewrite Forall_forall in Hsp'. apply Hsp', list_elem_of_In, Hf. }
    unfold TypedArray.get in Heqf.
    destruct (lookup_lt_is_Some_2 f i) as [y Hy]; [lia |].
    rewrite Hy in Heqf. simpl in Heqf. subst y.
    apply list_elem_of_In. eapply list_elem_of_lookup_2, Hy.
Qed.

Section CompletedCalibration.

Variable frequencyBinCount : nat.
Variable findPitch : list R -> pitch_result.

Lemma frames_of_run_bins (first : list R) (es : list event) (last : list R) :
  length first = frequencyBinCount ->
  Forall (no_new_calibration frequencyBinCount) es ->
  length last = frequencyBinCount ->
  Forall (fun f => length f = length first) (spectra_of es ++ [last]).
Proof.
  intros Hlen Hall Hlast. apply Forall_app. split.
  - eapply Forall_impl; [apply (spectra_of_bins frequencyBinCount es Hall) |].
    simpl. intros f Hf. lia.
  - constructor; [lia | constructor].
Qed.

(** X16: a calibration run that no other calibration overlaps (none is pending
    when [calibrateNoise] is called on [first], and the events [es] up to its
    last round, on [last], start none), of two rounds or more (the component's
    have 300), on an analyser with at least one bin.  When its last round is
    done, the noise floor is the largest value of all the bins of all the
    spectra the run consumed: no bin of any of them exceeds it, and it is a
    bin of one of them. *)
Theorem X16_floor_is_largest_bin (m : Machine) (first : list R) (m1 : Machine)
  (es : list event) (last : list R) :
  calLoops m = [] -> length first = frequencyBinCount ->
  (0 < frequencyBinCount)%nat ->
  calibration_started frequencyBinCount findPitch m first m1 ->
  Forall (no_new_calibration frequencyBinCount) es ->
  length last = frequencyBinCount ->
  S (S (length (spectra_of es))) = rounds (ui m) ->
  exists F : R,
    noiseFloorRef
      (ui (step frequencyBinCount findPitch
             (run frequencyBinCount findPitch m1 es)
             (CalibrationFrame 0 last))) = Finite F
    /\ (forall (f : list R) (x : R),
          In f (first :: spectra_of es ++ [last]) -> In x f -> x <= F)
    /\ (exists f : list R, In f (first :: spectra_of es ++ [last]) /\ In F f).
Proof.
  intros Hl Hlen Hpos Hstart Hall Hlast Heq.
  destruct (calibration_run_completes frequencyBinCount findPitch m first m1 es
              last Hl Hlen Hstart Hall Hlast Heq) as (_ & _ & -> & _).
  apply max_of_binwise_max.
  - intros E. rewrite E in Hlen. simpl in Hlen. lia.
  - apply frames_of_run_bins; assumption.
Qed.

(** X17: the floor is a spectrum magnitude and the gate compares it with a
    frequency.  For a calibration run as in X16 (not overlapped by another
    calibration): when no bin of the spectra it consumed is positive (the
    decibel values of a signal below full scale are not), the guard of line
    102, in a loop created with noise cancellation on, lets every positive
    pitch through once the run is complete. *)
Theorem X17_gate_open_below_full_scale (m : Machine) (first : list R)
  (m1 : Machine) (es : list event) (last : list R) (pitch : R) :
  calLoops m = [] -> length first = frequencyBinCount ->
  (0 < frequencyBinCount)%nat ->
  calibration_started frequencyBinCount findPitch m first m1 ->
  Forall (no_new_calibration frequencyBinCount) es ->
  length last = frequencyBinCount ->
  S (S (length (spectra_of es))) = rounds (ui m) ->
  (forall (f : list R) (x : R),
     In f (first :: spectra_of es ++ [last]) -> In x f -> x <= 0) ->
  0 < pitch ->
  accepted true
    (noiseFloorRef
       (ui (step frequencyBinCount findPitch
              (run frequencyBinCount findPitch m1 es)
              (CalibrationFrame 0 last))))
    (PitchNum pitch)
  = Some pitch.
Proof.
  intros Hl Hlen Hpos Hstart Hall Hlast Heq Hneg Hp.
  destruct (calibration_run_completes frequencyBinCount findPitch m first m1 es
              last Hl Hlen Hstart Hall Hlast Heq) as (_ & _ & -> & _).
  destruct (max_of_binwise_max first (spectra_of es ++ [last]))
    as (F & -> & _ & f & Hf & HF).
  { intros E. rewrite E in Hlen. simpl in Hlen. lia. }
  { apply frames_of_run_bins; assumption. }
  specialize (Hneg f F Hf HF). apply accepted_accept. right. lra.
Qed.

End CompletedCalibration.

(** ** Stopping while a calibration is pending *)

(** X18: [stopListening] does not touch the pending calibration loops, and a
    calibration frame has the same effect before and after it: the two
    commute. *)
Theorem X18_stop_commutes_with_calibration (k : nat) (frequencyData : list R)
  (m : Machine) :
  calibrationFrame k frequencyData (stopListening m)
  = stopListening (calibrationFrame k frequencyData m).
Proof.
  unfold calibrationFrame. cbn [calLoops stopListening].
  destruct (calLoops m !! k) as [l |]; [| reflexivity].
  unfold updateCalibration. cbn [ui stopListening noiseProfileRef set_currentNote
    set_pitchData set_isListening].
  destruct (noiseProfileRef (ui m)) as [profile |]; [| reflexivity].
  destruct (absorb _ _ _) as [profile' |]; [| reflexivity].
  destruct (decide _); reflexivity.
Qed.

(** ** Two calibrations at once *)

Section Overlap.

Variable frequencyBinCount : nat.
Variable findPitch : list R -> pitch_result.

(** X20: the checkbox is never disabled, so a calibration can be started
    while another one is pending; both loops then write the one profile.
    When the checkbox is checked just before the last round of a pending
    calibration, that round ends the old calibration on the new profile: the
    floor is the largest bin of only the two spectra seen since the click,
    and [isCalibrating] is cleared although the new loop has 299 rounds to
    go. *)
Theorem X20_overlapping_calibrations (m : Machine)
  (frequencyData lastData : list R) :
  isListening (ui m) = true -> calibrationTime (ui m) = 5%nat ->
  calLoops m = [mkCalLoop 299 300] ->
  length frequencyData = frequencyBinCount ->
  length lastData = frequencyBinCount ->
  let m' := run frequencyBinCount findPitch m
              [ChangeCancelNoise true frequencyData;
               CalibrationFrame 0 lastData] in
  noiseProfileRef (ui m') = Some (zip_with Rmax frequencyData lastData)
  /\ noiseFloorRef (ui m')
     = TypedArray.max_of (zip_with Rmax frequencyData lastData)
  /\ isCalibrating (ui m') = false
  /\ calLoops m' = [mkCalLoop 1 300].
Proof.
  intros Hl Ht Hloops Hlen Hlast. unfold run. cbn [fold_left step].
  unfold handleCancelNoiseChange. rewrite Hl. cbn [andb].
  unfold run_calibrateNoise, calibrateNoise, updateCalibration.
  cbn [ui with_ui noiseProfileRef set_noiseProfileRef set_cancelNoise
       set_isCalibrating calibrationFrames maxCalibrationFrames calibrationTime
       pitchLoop calLoops].
  rewrite Ht, Hloops.
  rewrite absorb_first
    by (unfold TypedArray.make; rewrite length_replicate; exact Hlen).
  destruct (decide (1 < 5 * 60)%nat) as [_ | Hn]; [| simpl in Hn; lia].
  unfold calibrationFrame. cbn [calLoops app pending lookup list_lookup].
  unfold updateCalibration.
  cbn [ui noiseProfileRef set_noiseProfileRef calibrationFrames
       maxCalibrationFrames].
  rewrite absorb_next by lia.
  destruct (decide (300 < 300)%nat) as [Hn | _]; [lia |].
  cbn. repeat split.
Qed.

End Overlap.

(** ** The chart *)

(** X19: the chart has one label per entry of the history; the labels are
    the decimal numerals of the positions, and no two are the same. *)
Theorem X19_chart_labels (pitchData : list R) :
  length (chartLabels pitchData) = length pitchData
  /\ (forall (i : nat) (x : R),
        pitchData !! i = Some x -> chartLabels pitchData !! i = Some (pretty i))
  /\ NoDup (chartLabels pitchData).
Proof.
  unfold chartLabels. split; [apply length_imap |]. split.
  - intros i x Hx. rewrite list_lookup_imap, Hx. reflexivity.
  - apply NoDup_alt. intros i j s Hi Hj.
    rewrite list_lookup_imap in Hi, Hj.
    destruct (pitchData !! i); [| discriminate].
    destruct (pitchData !! j); [| discriminate].
    simpl in Hi, Hj. injection Hi as Hi. injection Hj as Hj.
    apply (inj pretty). congruence.
Qed.

(** ** Instances of the further properties on concrete runs *)

Lemma X9_idle_until_granted_witness :
  pitchData
    (ui (run 1 first_sample initialMachine
           [ClickListen false [1] [1]; ChangeCancelNoise true [1];
            ClickCalibrate [1]; PitchFrame [1]])) = [].
Proof.
  apply (X9_idle_until_granted 1 first_sample
           [ClickListen false [1] [1]; ChangeCancelNoise true [1];
            ClickCalibrate [1]; PitchFrame [1]]).
  repeat constructor.
Defined.

Lemma X10_pitch_loop_closure_is_fixed_witness :
  pitchLoop
    (run 0 first_sample
       (mkMachine (set_isListening true initialState) (Some (mkEnv false 0)) [])
       [ChangeCancelNoise true []; ChangeSmoothness 3])
  = Some (mkEnv false 0).
Proof.
  apply (proj1 (X10_pitch_loop_closure_is_fixed 0 first_sample
                  (mkMachine (set_isListening true initialState)
                     (Some (mkEnv false 0)) [])
                  (mkEnv false 0)
                  [ChangeCancelNoise true []; ChangeSmoothness 3]
                  eq_refl ltac:(repeat constructor))).
Defined.

Lemma X11_calibrating_has_a_loop_witness :
  calLoops (run 2 silent initialMachine
              [ClickListen true [] []; ClickCalibrate [1; 2]]) <> [].
Proof.
  apply (X11_calibrating_has_a_loop 2 silent
           [ClickListen true [] []; ClickCalibrate [1; 2]]).
  - repeat constructor.
  - reflexivity.
Defined.

Lemma X13_history_not_negative_witness :
  Forall (fun x => 0 <= x)
    (pitchData (ui (run 1 (fun _ => PitchNum 440) initialMachine
                      [ClickListen true [] []; PitchFrame []]))).
Proof.
  apply (X13_history_not_negative 1 (fun _ => PitchNum 440)).
  intros frame pitch H. injection H as <-. lra.
Defined.

Lemma X16_floor_is_largest_bin_witness :
  exists F : R,
    noiseFloorRef
      (ui (step 1 silent
             (run 1 silent
                (run_calibrateNoise 1 [1]
                   (mkMachine (set_isListening true initialState)
                      (Some (mkEnv false 0)) []))
                (replicate 298 (CalibrationFrame 0 [1])))
             (CalibrationFrame 0 [2]))) = Finite F
    /\ (forall (f : list R) (x : R),
          In f ([1] :: spectra_of (replicate 298 (CalibrationFrame 0 [1])) ++ [[2]]) ->
          In x f -> x <= F)
    /\ (exists f : list R,
          In f ([1] :: spectra_of (replicate 298 (CalibrationFrame 0 [1])) ++ [[2]])
          /\ In F f).
Proof.
  apply (X16_floor_is_largest_bin 1 silent
           (mkMachine (set_isListening true initialState) (Some (mkEnv false 0)) [])
           [1]
           (run_calibrateNoise 1 [1]
              (mkMachine (set_isListening true initialState)
                 (Some (mkEnv false 0)) []))
           (replicate 298 (CalibrationFrame 0 [1])) [2]).
  - reflexivity.
  - reflexivity.
  - lia.
  - left. reflexivity.
  - apply Forall_replicate. split; reflexivity.
  - reflexivity.
  - rewrite spectra_of_calibration_frames, length_replicate. reflexivity.
Defined.

Lemma X17_gate_open_below_full_scale_witness :
  accepted true
    (noiseFloorRef
       (ui (step 1 silent
              (run 1 silent
                 (run_calibrateNoise 1 [-30]
                    (mkMachine (set_isListening true initialState)
                       (Some (mkEnv true 0)) []))
                 (replicate 298 (CalibrationFrame 0 [-30])))
              (CalibrationFrame 0 [-30]))))
    (PitchNum 440)
  = Some 440.
Proof.
  apply (X17_gate_open_below_full_scale 1 silent
           (mkMachine (set_isListening true initialState) (Some (mkEnv true 0)) [])
           [-30]
           (run_calibrateNoise 1 [-30]
              (mkMachine (set_isListening true initialState)
                 (Some (mkEnv true 0)) []))
           (replicate 298 (CalibrationFrame 0 [-30])) [-30] 440).
  - reflexivity.
  - reflexivity.
  - lia.
  - left. reflexivity.
  - apply Forall_replicate. split; reflexivity.
  - reflexivity.
  - rewrite spectra_of_calibration_frames, length_replicate. reflexivity.
  - rewrite spectra_of_calibration_frames. intros f x Hf Hx.
    assert (f = [-30]) as ->.
    { destruct Hf as [<- | Hf]; [reflexivity |].
      apply in_app_or in Hf as [Hf | [<- | []]]; [| reflexivity].
      apply list_elem_of_In, elem_of_replicate in Hf as [-> _]. reflexivity. }
    destruct Hx as [<- | []]. lra.
  - lra.
Defined.

Lemma X20_overlapping_calibrations_witness :
  calLoops
    (run 1 silent
       (mkMachine (set_isCalibrating true (set_isListening true initialState))
          (Some (mkEnv false 0)) [mkCalLoop 299 300])
       [ChangeCancelNoise true [2]; CalibrationFrame 0 [3]])
  = [mkCalLoop 1 300].
Proof.
  apply (X20_overlapping_calibrations 1 silent
           (mkMachine (set_isCalibrating true (set_isListening true initialState))
              (Some (mkEnv false 0)) [mkCalLoop 299 300])
           [2] [3]); reflexivity.
Defined.
